(** * aipos-media-bridge: the Twilio <-> ElevenLabs media bridge

    A shallow embedding of the three revisions of the bridge
    ([src/media-bridge.ts], [src/unnamed/part_000], [src/unnamed/part_001])
    and the properties of the specification checked against them.

    Layout:
    - [JS]        the fragment of JavaScript values and operators the
                  handlers use (property access, optional chaining,
                  truthiness, strict equality with a literal, [ToString]);
    - [Base64]    the platform's [btoa] / [atob] (RFC 4648 encoding and the
                  forgiving-base64 decoding of the HTML standard), and the
                  two conversions the bridge wraps around them;
    - [Bridge]    sockets, frames, events and the state shared by the three
                  revisions;
    - [MediaBridge], [Part000], [Part001]  the handlers of each revision;
    - the theorems. *)

From Stdlib Require Import ZArith NArith List Bool Lia.
From Stdlib.Strings Require Import String Ascii Byte.
From Stdlib Require Import DecimalString.
Import ListNotations.

Local Open Scope string_scope.
Local Open Scope list_scope.

(** ** Completions: a value, or a thrown exception *)

Inductive completion (A : Type) : Type :=
| Normal (a : A)
| Throw.
Arguments Normal {A} a.
Arguments Throw {A}.

(** ** JavaScript values *)

Module JS.

(** What [JSON.parse] returns, plus [undefined] (the value of a missing
    property).  Numbers are the integer-valued ones: the handlers only test
    them for truthiness and copy them.  An object is the list of its own
    properties in insertion order (the order [JSON.stringify] writes). *)
#[warnings="-register-all"]
Inductive js : Type :=
| JUndefined
| JNull
| JBool (b : bool)
| JNum (n : Z)
| JStr (s : string)
| JArr (items : list js)
| JObj (fields : list (string * js)).

(** [ToBoolean]: [undefined], [null], [false], [0] and [""] are falsy. *)
Definition truthy (v : js) : bool :=
  match v with
  | JUndefined | JNull => false
  | JBool b => b
  | JNum n => negb (n =? 0)%Z
  | JStr s => negb (s =? "")
  | JArr _ | JObj _ => true
  end.

(** [a || b] *)
Definition or_else (a b : js) : js := if truthy a then a else b.

(** [v === "lit"] *)
Definition is_str (v : js) (lit : string) : bool :=
  match v with
  | JStr s => s =? lit
  | _ => false
  end.

Fixpoint lookup (k : string) (fields : list (string * js)) : js :=
  match fields with
  | [] => JUndefined
  | (k', v) :: rest => if k' =? k then v else lookup k rest
  end.

(** [v.k] for the property names the handlers read ([event], [start],
    [streamSid], [media], [payload], [type], [audio], [chunk], [audio_event],
    [audio_base_64], [ping_event], [event_id]): a TypeError on [undefined] and
    [null], the own property of an object, and [undefined] on every other
    value (none of these names is a property of a string, number, boolean or
    array). *)
Definition get (v : js) (k : string) : completion js :=
  match v with
  | JUndefined | JNull => Throw
  | JObj fields => Normal (lookup k fields)
  | _ => Normal JUndefined
  end.

(** [v?.k] *)
Definition get_opt (v : js) (k : string) : js :=
  match v with
  | JObj fields => lookup k fields
  | _ => JUndefined
  end.

(** [ToString], as [atob] applies it to its argument. *)
Fixpoint ToString (v : js) : string :=
  match v with
  | JUndefined => "undefined"
  | JNull => "null"
  | JBool true => "true"
  | JBool false => "false"
  | JNum n => NilZero.string_of_int (Z.to_int n)
  | JStr s => s
  | JArr items =>
      (fix join (l : list js) : string :=
         match l with
         | [] => ""
         | x :: rest =>
             let sx := match x with
                       | JUndefined | JNull => ""
                       | _ => ToString x
                       end in
             match rest with
             | [] => sx
             | _ :: _ => (sx ++ "," ++ join rest)%string
             end
         end) items
  | JObj _ => "[object Object]"
  end.

(** What [JSON.stringify] keeps of a value: a property whose value is
    [undefined] is left out, an [undefined] array element becomes [null].
    A text frame is recorded as the value it serialises. *)
Fixpoint stringify (v : js) : js :=
  match v with
  | JArr items =>
      JArr (map (fun x => match x with
                          | JUndefined => JNull
                          | _ => stringify x
                          end) items)
  | JObj fields =>
      JObj ((fix props (l : list (string * js)) : list (string * js) :=
               match l with
               | [] => []
               | (k, JUndefined) :: rest => props rest
               | (k, x) :: rest => (k, stringify x) :: props rest
               end) fields)
  | _ => v
  end.

End JS.
Import JS.

(** ** Base64: [btoa], [atob] and the byte conversions around them *)

Module Base64.

Local Open Scope N_scope.

Definition alphabet : list ascii :=
  list_ascii_of_string
    "ABCDEFGHIJKLMNOPQRSTUVWXYZabcdefghijklmnopqrstuvwxyz0123456789+/".

Definition pad_char : ascii := "="%char.

(** The character of a 6-bit value. *)
Definition b64_char (n : N) : ascii := nth (N.to_nat n) alphabet "A"%char.

(** The 6-bit value of a character of the alphabet. *)
Definition b64_index (c : ascii) : option N :=
  let x := N_of_ascii c in
  if (65 <=? x) && (x <=? 90) then Some (x - 65)
  else if (97 <=? x) && (x <=? 122) then Some (x - 71)
  else if (48 <=? x) && (x <=? 57) then Some (x + 4)
  else if x =? 43 then Some 62
  else if x =? 47 then Some 63
  else None.

(** Bytes to 6-bit groups: three bytes give four groups, a final single
    byte two, a final pair three (RFC 4648, section 4). *)
Fixpoint sextets_of_bytes (l : list N) : list N :=
  match l with
  | [] => []
  | [a] => [a / 4; (a mod 4) * 16]
  | [a; b] => [a / 4; (a mod 4) * 16 + b / 16; (b mod 16) * 4]
  | a :: b :: c :: rest =>
      a / 4 :: (a mod 4) * 16 + b / 16 :: (b mod 16) * 4 + c / 64 :: c mod 64
        :: sextets_of_bytes rest
  end.

Definition padding (n : nat) : list ascii :=
  match (n mod 3)%nat with
  | 1%nat => [pad_char; pad_char]
  | 2%nat => [pad_char]
  | _ => []
  end.

(** [btoa(s)] on a binary string: every code unit of a Rocq string is below
    256, so the InvalidCharacterError of [btoa] cannot occur. *)
Definition btoa (s : string) : string :=
  let bytes := map N_of_ascii (list_ascii_of_string s) in
  string_of_list_ascii
    (map b64_char (sextets_of_bytes bytes) ++ padding (List.length bytes)).

(** ASCII whitespace: TAB, LF, FF, CR, SPACE. *)
Definition is_ascii_whitespace (c : ascii) : bool :=
  let x := N_of_ascii c in
  (x =? 9) || (x =? 10) || (x =? 12) || (x =? 13) || (x =? 32).

(** Step 2 of forgiving-base64 decode: when the length is a multiple of
    four, one or two trailing [=] are removed. *)
Definition strip_padding (d : list ascii) : list ascii :=
  if (List.length d mod 4 =? 0)%nat then
    match rev d with
    | c1 :: r1 =>
        if Ascii.eqb c1 pad_char then
          match r1 with
          | c2 :: r2 => if Ascii.eqb c2 pad_char then rev r2 else rev r1
          | [] => rev r1
          end
        else d
    | [] => d
    end
  else d.

Fixpoint indices (d : list ascii) : option (list N) :=
  match d with
  | [] => Some []
  | c :: rest =>
      match b64_index c, indices rest with
      | Some v, Some vs => Some (v :: vs)
      | _, _ => None
      end
  end.

(** 6-bit groups back to bytes: 24 bits give three bytes; 12 remaining bits
    give one byte (the last four bits are discarded), 18 remaining bits two
    (the last two are discarded). *)
Fixpoint bytes_of_sextets (l : list N) : list N :=
  match l with
  | s1 :: s2 :: s3 :: s4 :: rest =>
      let n := ((s1 * 64 + s2) * 64 + s3) * 64 + s4 in
      n / 65536 :: (n / 256) mod 256 :: n mod 256 :: bytes_of_sextets rest
  | [s1; s2; s3] =>
      let n := ((s1 * 64 + s2) * 64 + s3) / 4 in
      [n / 256; n mod 256]
  | [s1; s2] => [(s1 * 64 + s2) / 16]
  | _ => []
  end.

(** [atob(s)]: forgiving-base64 decode; [Throw] is the
    InvalidCharacterError.  A character above U+00FF, which a Rocq string
    cannot hold, is rejected like any other character outside the alphabet. *)
Definition atob (s : string) : completion string :=
  let d := filter (fun c => negb (is_ascii_whitespace c)) (list_ascii_of_string s) in
  let d := strip_padding d in
  if (List.length d mod 4 =? 1)%nat then Throw
  else match indices d with
       | None => Throw
       | Some vs => Normal (string_of_list_ascii (map ascii_of_N (bytes_of_sextets vs)))
       end.

(** [Uint8Array.from(atob(payload), c => c.charCodeAt(0))]
    (part_000:87 and 147, part_001:151); [atob] converts its argument with
    [ToString] first. *)
Definition decode_payload (payload : js) : completion (list byte) :=
  match atob (ToString payload) with
  | Normal bin => Normal (list_byte_of_string bin)
  | Throw => Throw
  end.

(** [btoa(String.fromCharCode(...audioData))] (part_000:107, part_001:103). *)
Definition encode_audio (audioData : list byte) : string :=
  btoa (string_of_list_byte audioData).

(** Bounds of a byte and of a 6-bit group, and a character that is neither
    whitespace nor padding. *)
Definition is_byte (x : N) : Prop := x < 256.
Definition is_sextet (x : N) : Prop := x < 64.
Definition plain (c : ascii) : Prop :=
  is_ascii_whitespace c = false /\ Ascii.eqb c pad_char = false.

End Base64.
Import Base64.

(** ** Sockets, frames, events and the state of one call *)

Module Bridge.

(** [WebSocket.readyState] *)
Inductive ReadyState : Set := CONNECTING | OPEN | CLOSING | CLOSED.

Definition is_open (r : ReadyState) : bool :=
  match r with OPEN => true | _ => false end.

Definition is_closed (r : ReadyState) : bool :=
  match r with CLOSED => true | _ => false end.

(** [socket.close()]: starts the closing handshake of a connecting or open
    socket and does nothing on a closing or closed one. *)
Definition ws_close (r : ReadyState) : ReadyState :=
  match r with
  | CONNECTING | OPEN => CLOSING
  | CLOSING | CLOSED => r
  end.

(** What [send] puts on a connection.  [TextFrame j] is the text
    [JSON.stringify] produced, recorded as the value [j] it serialises. *)
Inductive Frame : Type :=
| TextFrame (json : js)
| BinaryFrame (data : list byte).

(** [event.data] of a message event.  A text frame is given by what
    [JSON.parse] makes of it ([Throw] for a SyntaxError); a binary frame
    arrives as a [Blob] (the default [binaryType]) or an [ArrayBuffer]. *)
Inductive MessageData : Type :=
| TextData (parsed : completion js)
| BlobData (bytes : list byte)
| ArrayBufferData (bytes : list byte).

(** [JSON.parse(event.data)]: a [Blob] or [ArrayBuffer] is converted to the
    string "[object Blob]" / "[object ArrayBuffer]", which is no JSON. *)
Definition JSON_parse (d : MessageData) : completion js :=
  match d with
  | TextData parsed => parsed
  | BlobData _ | ArrayBufferData _ => Throw
  end.

(** How the credential exchange [await fetch(...)] settles.
    [ResponseOk connects]: [response.ok] holds; [connects] is false when
    [response.json()] or [new WebSocket(signed_url)] throws.
    [ResponseNotOk]: a non-success status.  [FetchRejected]: [fetch] itself
    throws. *)
Inductive FetchResult : Set :=
| ResponseOk (connects : bool)
| ResponseNotOk
| FetchRejected.

(** The events the runtime delivers to a bridge. *)
Inductive Event : Type :=
| TwilioOpen
| FetchSettled (r : FetchResult)
| ElevenOpen
| ElevenMessage (d : MessageData)
| BlobRead (i : nat)            (* the i-th pending [arrayBuffer()] resolves *)
| ElevenError
| ElevenClose
| TwilioMessage (d : MessageData)
| TwilioError
| TwilioClose.

(** The variables of one upgraded connection (the closure of the [serve]
    callback), the two sockets, the suspended continuations, and what has
    been sent on each connection, oldest first.  [B] is the element type of
    [audioBuffer]. *)
Record State (B : Type) : Type := mkState {
  twilioSocket : ReadyState;
  elevenlabsSocket : option ReadyState;       (* [null] or a socket *)
  streamSid : js;
  elevenlabsReady : bool;
  audioBuffer : list B;
  fetchPending : bool;                        (* [onopen] waits at [await fetch] *)
  blobReads : list (list byte);               (* pending [arrayBuffer()] reads *)
  toTwilio : list Frame;
  toEleven : list Frame
}.
Arguments mkState {B}.
Arguments twilioSocket {B}.
Arguments elevenlabsSocket {B}.
Arguments streamSid {B}.
Arguments elevenlabsReady {B}.
Arguments audioBuffer {B}.
Arguments fetchPending {B}.
Arguments blobReads {B}.
Arguments toTwilio {B}.
Arguments toEleven {B}.

(** The state right after [Deno.upgradeWebSocket(req)]. *)
Definition init {B} : State B :=
  mkState CONNECTING None JNull false [] false [] [] [].

Section Setters.
Context {B : Type}.

Definition set_twilioSocket (r : ReadyState) (s : State B) : State B :=
  mkState r (elevenlabsSocket s) (streamSid s) (elevenlabsReady s)
    (audioBuffer s) (fetchPending s) (blobReads s) (toTwilio s) (toEleven s).
Definition set_elevenlabsSocket (o : option ReadyState) (s : State B) : State B :=
  mkState (twilioSocket s) o (streamSid s) (elevenlabsReady s)
    (audioBuffer s) (fetchPending s) (blobReads s) (toTwilio s) (toEleven s).
Definition set_streamSid (v : js) (s : State B) : State B :=
  mkState (twilioSocket s) (elevenlabsSocket s) v (elevenlabsReady s)
    (audioBuffer s) (fetchPending s) (blobReads s) (toTwilio s) (toEleven s).
Definition set_elevenlabsReady (b : bool) (s : State B) : State B :=
  mkState (twilioSocket s) (elevenlabsSocket s) (streamSid s) b
    (audioBuffer s) (fetchPending s) (blobReads s) (toTwilio s) (toEleven s).
Definition set_audioBuffer (l : list B) (s : State B) : State B :=
  mkState (twilioSocket s) (elevenlabsSocket s) (streamSid s) (elevenlabsReady s)
    l (fetchPending s) (blobReads s) (toTwilio s) (toEleven s).
Definition set_fetchPending (b : bool) (s : State B) : State B :=
  mkState (twilioSocket s) (elevenlabsSocket s) (streamSid s) (elevenlabsReady s)
    (audioBuffer s) b (blobReads s) (toTwilio s) (toEleven s).
Definition set_blobReads (l : list (list byte)) (s : State B) : State B :=
  mkState (twilioSocket s) (elevenlabsSocket s) (streamSid s) (elevenlabsReady s)
    (audioBuffer s) (fetchPending s) l (toTwilio s) (toEleven s).
Definition set_toTwilio (l : list Frame) (s : State B) : State B :=
  mkState (twilioSocket s) (elevenlabsSocket s) (streamSid s) (elevenlabsReady s)
    (audioBuffer s) (fetchPending s) (blobReads s) l (toEleven s).
Definition set_toEleven (l : list Frame) (s : State B) : State B :=
  mkState (twilioSocket s) (elevenlabsSocket s) (streamSid s) (elevenlabsReady s)
    (audioBuffer s) (fetchPending s) (blobReads s) (toTwilio s) l.
End Setters.

(** *** Handler bodies: state passing with exceptions

    A handler body takes the state and returns its completion together with
    the state it leaves; an assignment made before a [throw] stays made. *)
Definition M (B A : Type) : Type := State B -> completion A * State B.

Section Monad.
Context {B : Type}.

Definition ret {A} (a : A) : M B A := fun s => (Normal a, s).

Definition bind {A C} (m : M B A) (k : A -> M B C) : M B C :=
  fun s => match m s with
           | (Normal a, s') => k a s'
           | (Throw, s') => (Throw, s')
           end.

Definition throw {A} : M B A := fun s => (Throw, s).

(** An expression that may throw. *)
Definition lift {A} (c : completion A) : M B A := fun s => (c, s).

(** [try { body } catch (e) { handler }] *)
Definition try_catch (body handler : M B unit) : M B unit :=
  fun s => match body s with
           | (Normal a, s') => (Normal a, s')
           | (Throw, s') => handler s'
           end.

Definition read {A} (f : State B -> A) : M B A := fun s => (Normal (f s), s).
Definition modify (f : State B -> State B) : M B unit := fun s => (Normal tt, f s).

(** [console.log] / [console.error]: no effect on the bridge. *)
Definition log : M B unit := ret tt.

(** The state a handler leaves; an exception that escapes a handler is
    reported by the runtime and changes nothing further. *)
Definition exec (m : M B unit) (s : State B) : State B := snd (m s).
End Monad.

Notation "x <- m ;; k" := (bind m (fun x => k))
  (at level 61, m at next level, right associativity).
Notation "m ;;; k" := (bind m (fun _ => k))
  (at level 61, right associativity).

Section Sockets.
Context {B : Type}.

(** [twilioSocket.send(frame)].  Outside [OPEN] nothing is transmitted
    (Deno throws an InvalidStateError). *)
Definition twilio_send (f : Frame) : M B unit :=
  fun s => if is_open (twilioSocket s)
           then (Normal tt, set_toTwilio (toTwilio s ++ [f]) s)
           else (Throw, s).

(** [elevenlabsSocket!.send(frame)]: a TypeError on [null]. *)
Definition eleven_send (f : Frame) : M B unit :=
  fun s => match elevenlabsSocket s with
           | Some OPEN => (Normal tt, set_toEleven (toEleven s ++ [f]) s)
           | _ => (Throw, s)
           end.

(** [twilioSocket.close()] *)
Definition twilio_close : M B unit :=
  modify (fun s => set_twilioSocket (ws_close (twilioSocket s)) s).

(** [elevenlabsSocket?.close()] *)
Definition eleven_close : M B unit :=
  modify (fun s => set_elevenlabsSocket (option_map ws_close (elevenlabsSocket s)) s).

(** [twilioSocket.readyState === WebSocket.OPEN] *)
Definition twilio_is_open : M B bool := read (fun s => is_open (twilioSocket s)).

(** [elevenlabsSocket?.readyState === WebSocket.OPEN] *)
Definition eleven_is_open : M B bool :=
  read (fun s => match elevenlabsSocket s with
                 | Some r => is_open r
                 | None => false
                 end).
End Sockets.

(** The media frame and the clear frame sent to the caller. *)
Definition media_frame (sid payload : js) : Frame :=
  TextFrame (stringify (JObj [("event", JStr "media");
                              ("streamSid", sid);
                              ("media", JObj [("payload", payload)])])).

Definition clear_frame (sid : js) : Frame :=
  TextFrame (stringify (JObj [("event", JStr "clear"); ("streamSid", sid)])).

Definition pong_frame (event_id : js) : Frame :=
  TextFrame (stringify (JObj [("type", JStr "pong"); ("event_id", event_id)])).

(** *** The handlers of a revision and the event loop *)

Record Handlers (B : Type) : Type := mkHandlers {
  twilio_onopen : M B unit;                     (* up to [await fetch] *)
  fetch_settled : FetchResult -> M B unit;      (* the rest of [onopen] *)
  eleven_onopen : M B unit;
  eleven_onmessage : MessageData -> M B unit;
  blob_read : list byte -> M B unit;            (* after [arrayBuffer()] *)
  eleven_onerror : M B unit;
  eleven_onclose : M B unit;
  twilio_onmessage : MessageData -> M B unit;
  twilio_onerror : M B unit;
  twilio_onclose : M B unit
}.
Arguments twilio_onopen {B}.
Arguments fetch_settled {B}.
Arguments eleven_onopen {B}.
Arguments eleven_onmessage {B}.
Arguments blob_read {B}.
Arguments eleven_onerror {B}.
Arguments eleven_onclose {B}.
Arguments twilio_onmessage {B}.
Arguments twilio_onerror {B}.
Arguments twilio_onclose {B}.

Fixpoint remove_nth {A} (i : nat) (l : list A) : list A :=
  match l, i with
  | [], _ => []
  | _ :: rest, O => rest
  | x :: rest, S j => x :: remove_nth j rest
  end.

Section Loop.
Context {B : Type} (h : Handlers B).

(** When the runtime can deliver an event: [open] once, while connecting;
    messages while the socket is open (Deno also delivers them while it is
    closing); [error] and [close] until the socket is closed; a
    continuation when it is pending. *)
Definition enabled (e : Event) (s : State B) : bool :=
  match e with
  | TwilioOpen =>
      match twilioSocket s with CONNECTING => true | _ => false end
  | FetchSettled _ => fetchPending s
  | ElevenOpen =>
      match elevenlabsSocket s with Some CONNECTING => true | _ => false end
  | ElevenMessage _ =>
      match elevenlabsSocket s with Some OPEN | Some CLOSING => true | _ => false end
  | BlobRead i => (i <? List.length (blobReads s))%nat
  | ElevenError | ElevenClose =>
      match elevenlabsSocket s with
      | Some r => negb (is_closed r)
      | None => false
      end
  | TwilioMessage _ =>
      match twilioSocket s with OPEN | CLOSING => true | _ => false end
  | TwilioError | TwilioClose => negb (is_closed (twilioSocket s))
  end.

(** One event: the runtime updates the socket, then runs the handler. *)
Definition deliver (e : Event) (s : State B) : State B :=
  match e with
  | TwilioOpen => exec (twilio_onopen h) (set_twilioSocket OPEN s)
  | FetchSettled r => exec (fetch_settled h r) (set_fetchPending false s)
  | ElevenOpen => exec (eleven_onopen h) (set_elevenlabsSocket (Some OPEN) s)
  | ElevenMessage d => exec (eleven_onmessage h d) s
  | BlobRead i =>
      match nth_error (blobReads s) i with
      | Some bytes =>
          exec (blob_read h bytes) (set_blobReads (remove_nth i (blobReads s)) s)
      | None => s
      end
  | ElevenError => exec (eleven_onerror h) s
  | ElevenClose => exec (eleven_onclose h) (set_elevenlabsSocket (Some CLOSED) s)
  | TwilioMessage d => exec (twilio_onmessage h d) s
  | TwilioError => exec (twilio_onerror h) s
  | TwilioClose => exec (twilio_onclose h) (set_twilioSocket CLOSED s)
  end.

Definition step (e : Event) (s : State B) : State B :=
  if enabled e s then deliver e s else s.

Definition run (evs : list Event) (s : State B) : State B :=
  fold_left (fun s e => step e s) evs s.
End Loop.

End Bridge.
Import Bridge.

(** The parameters of a call the handlers use, read from the upgrade
    request's URL ([agent_id] and [call_sid] only reach the credential
    exchange and the log). *)
Record Call : Set := mkCall {
  businessName : string;
  phoneNumber : string
}.

(** ** src/media-bridge.ts: JSON events in both directions, no queue *)

Module MediaBridge.

Section Handlers.
(** [decodeURIComponent] of the platform; it throws a URIError on a
    malformed escape sequence. *)
Variable decodeURIComponent : string -> completion string.
Variable call : Call.

Definition St := State Empty_set.

Definition initMessage (decodedName : string) : js :=
  JObj [("type", JStr "conversation_initiation_client_data");
        ("conversation_config_override",
         JObj [("agent",
                JObj [("prompt",
                       JObj [("prompt",
                              JStr ("The caller's business name is "
                                    ++ businessName call
                                    ++ ". Their phone number is "
                                    ++ phoneNumber call ++ "."))]);
                      ("first_message",
                       JStr ("Hi " ++ decodedName
                             ++ "! Thanks for calling. How can I help you today?"))])])].

(** [twilioSocket.onopen], lines 33-46: log, then [await fetch]. *)
Definition twilio_onopen : M Empty_set unit :=
  log ;;; modify (set_fetchPending true).

(** [twilioSocket.onopen], lines 48-151. *)
Definition fetch_settled (r : FetchResult) : M Empty_set unit :=
  try_catch
    (match r with
     | FetchRejected => throw
     | ResponseNotOk => log ;;; twilio_close
     | ResponseOk connects =>
         log ;;;
         (if connects then modify (set_elevenlabsSocket (Some CONNECTING))
          else throw)
     end)
    (log ;;; twilio_close).

(** [elevenlabsSocket.onopen], lines 63-82. *)
Definition eleven_onopen : M Empty_set unit :=
  log ;;;
  name <- lift (decodeURIComponent (businessName call)) ;;
  eleven_send (TextFrame (stringify (initMessage name))) ;;;
  modify (set_elevenlabsReady true) ;;;
  log.

(** [message.audio?.chunk || message.audio_event?.audio_base_64], line 92. *)
Definition audioPayload (message : js) : completion js :=
  match get message "audio" with
  | Throw => Throw
  | Normal audio =>
      let chunk := get_opt audio "chunk" in
      if truthy chunk then Normal chunk
      else match get message "audio_event" with
           | Throw => Throw
           | Normal audio_event => Normal (get_opt audio_event "audio_base_64")
           end
  end.

(** [elevenlabsSocket.onmessage], lines 84-135. *)
Definition eleven_onmessage (d : MessageData) : M Empty_set unit :=
  try_catch
    (message <- lift (JSON_parse d) ;;
     type <- lift (get message "type") ;;
     if is_str type "audio" then
       sid <- read streamSid ;;
       tw_open <- twilio_is_open ;;
       if truthy sid && tw_open then
         payload <- lift (audioPayload message) ;;
         if truthy payload then twilio_send (media_frame sid payload)
         else ret tt
       else ret tt
     else if is_str type "interruption" then
       sid <- read streamSid ;;
       tw_open <- twilio_is_open ;;
       if truthy sid && tw_open then twilio_send (clear_frame sid)
       else ret tt
     else if is_str type "ping" then
       ping_event <- lift (get message "ping_event") ;;
       if truthy (get_opt ping_event "event_id") then
         ping_event' <- lift (get message "ping_event") ;;
         event_id <- lift (get ping_event' "event_id") ;;
         eleven_send (pong_frame event_id)
       else ret tt
     else if is_str type "conversation_initiation_metadata" then log
     else log)
    log.

(** A binary frame is never read in this revision. *)
Definition blob_read (bytes : list byte) : M Empty_set unit := ret tt.

(** [elevenlabsSocket.onerror], lines 137-139. *)
Definition eleven_onerror : M Empty_set unit := log.

(** [elevenlabsSocket.onclose], lines 141-146. *)
Definition eleven_onclose : M Empty_set unit :=
  log ;;;
  tw_open <- twilio_is_open ;;
  if tw_open then twilio_close else ret tt.

(** [twilioSocket.onmessage], lines 154-177. *)
Definition twilio_onmessage (d : MessageData) : M Empty_set unit :=
  try_catch
    (message <- lift (JSON_parse d) ;;
     event <- lift (get message "event") ;;
     if is_str event "start" then
       start <- lift (get message "start") ;;
       sid <- lift (get start "streamSid") ;;
       modify (set_streamSid sid) ;;;
       log
     else if is_str event "media" then
       ready <- read elevenlabsReady ;;
       el_open <- eleven_is_open ;;
       if ready && el_open then
         media <- lift (get message "media") ;;
         payload <- lift (get media "payload") ;;
         eleven_send (TextFrame (stringify (JObj [("user_audio_chunk", payload)])))
       else ret tt
     else if is_str event "stop" then
       log ;;;
       el_open <- eleven_is_open ;;
       if el_open then eleven_close else ret tt
     else ret tt)
    log.

(** [twilioSocket.onerror], lines 179-181. *)
Definition twilio_onerror : M Empty_set unit := log.

(** [twilioSocket.onclose], lines 183-188. *)
Definition twilio_onclose : M Empty_set unit :=
  log ;;;
  el_open <- eleven_is_open ;;
  if el_open then eleven_close else ret tt.

Definition handlers : Handlers Empty_set :=
  mkHandlers Empty_set twilio_onopen fetch_settled eleven_onopen eleven_onmessage
    blob_read eleven_onerror eleven_onclose twilio_onmessage twilio_onerror
    twilio_onclose.
End Handlers.

End MediaBridge.

(** ** src/unnamed/part_000: binary audio, a queue of base64 payloads *)

Module Part000.

Section Handlers.
(** [businessName] is already decoded here (line 12, before the upgrade). *)
Variable call : Call.

Definition sessionConfig : js :=
  JObj [("type", JStr "conversation_initiation_client_data");
        ("conversation_config_override",
         JObj [("agent",
                JObj [("first_message",
                       JStr ("Hi " ++ businessName call
                             ++ "! I'm James from AI POS UK. How can I help you today?"));
                      ("prompt",
                       JObj [("prompt",
                              JStr ("You are James, a friendly sales agent for AI POS UK. The caller's business is "
                                    ++ businessName call ++ " and their phone is "
                                    ++ phoneNumber call
                                    ++ ". Be conversational and helpful."))])])]);
        ("custom_llm_extra_body",
         JObj [("business_name", JStr (businessName call));
               ("phone_number", JStr (phoneNumber call))])].

(** [twilioSocket.onopen], lines 35-47. *)
Definition twilio_onopen : M js unit :=
  log ;;; log ;;; modify (set_fetchPending true).

(** [twilioSocket.onopen], lines 49-135. *)
Definition fetch_settled (r : FetchResult) : M js unit :=
  try_catch
    (match r with
     | FetchRejected => throw
     | ResponseNotOk => log ;;; twilio_close
     | ResponseOk connects =>
         log ;;;
         (if connects then modify (set_elevenlabsSocket (Some CONNECTING))
          else throw)
     end)
    (log ;;; twilio_close).

(** [audioBuffer.forEach(base64Audio => ...)], lines 86-89. *)
Fixpoint flush (buffered : list js) : M js unit :=
  match buffered with
  | [] => ret tt
  | base64Audio :: rest =>
      mulawData <- lift (decode_payload base64Audio) ;;
      eleven_send (BinaryFrame mulawData) ;;;
      flush rest
  end.

(** [elevenlabsSocket.onopen], lines 61-91. *)
Definition eleven_onopen : M js unit :=
  log ;;;
  modify (set_elevenlabsReady true) ;;;
  eleven_send (TextFrame (stringify sessionConfig)) ;;;
  log ;;;
  buffered <- read audioBuffer ;;
  flush buffered ;;;
  modify (set_audioBuffer []).

(** Lines 107-115: base64 for Twilio, sent when the caller is open and
    the stream is known. *)
Definition forward_audio (audioData : list byte) : M js unit :=
  let base64Audio := JStr (encode_audio audioData) in
  tw_open <- twilio_is_open ;;
  sid <- read streamSid ;;
  if tw_open && truthy sid then twilio_send (media_frame sid base64Audio)
  else ret tt.

(** [elevenlabsSocket.onmessage], lines 93-120.  On a [Blob] the handler
    waits for [arrayBuffer()]; [blob_read] is what follows. *)
Definition eleven_onmessage (d : MessageData) : M js unit :=
  try_catch
    (match d with
     | TextData parsed => msg <- lift parsed ;; log
     | BlobData bytes => modify (fun s => set_blobReads (blobReads s ++ [bytes]) s)
     | ArrayBufferData bytes => forward_audio bytes
     end)
    log.

Definition blob_read (bytes : list byte) : M js unit :=
  try_catch (forward_audio bytes) log.

(** [elevenlabsSocket.onerror], lines 122-125. *)
Definition eleven_onerror : M js unit := log ;;; twilio_close.

(** [elevenlabsSocket.onclose], lines 127-130. *)
Definition eleven_onclose : M js unit :=
  log ;;;
  tw_open <- twilio_is_open ;;
  if tw_open then twilio_close else ret tt.

(** [twilioSocket.onmessage], lines 138-161. *)
Definition twilio_onmessage (d : MessageData) : M js unit :=
  try_catch
    (message <- lift (JSON_parse d) ;;
     event <- lift (get message "event") ;;
     if is_str event "start" then
       start <- lift (get message "start") ;;
       sid <- lift (get start "streamSid") ;;
       modify (set_streamSid sid) ;;;
       log
     else
       is_media <-
         (if is_str event "media" then
            media <- lift (get message "media") ;;
            ret (truthy (get_opt media "payload"))
          else ret false) ;;
       if is_media then
         media <- lift (get message "media") ;;
         payload <- lift (get media "payload") ;;
         mulawData <- lift (decode_payload payload) ;;
         ready <- read elevenlabsReady ;;
         el_open <- eleven_is_open ;;
         if ready && el_open then eleven_send (BinaryFrame mulawData)
         else
           media' <- lift (get message "media") ;;
           payload' <- lift (get media' "payload") ;;
           modify (fun s => set_audioBuffer (audioBuffer s ++ [payload']) s)
       else if is_str event "stop" then
         log ;;; eleven_close
       else ret tt)
    log.

(** [twilioSocket.onerror], line 163. *)
Definition twilio_onerror : M js unit := log.

(** [twilioSocket.onclose], lines 164-167. *)
Definition twilio_onclose : M js unit := log ;;; eleven_close.

Definition handlers : Handlers js :=
  mkHandlers js twilio_onopen fetch_settled eleven_onopen eleven_onmessage
    blob_read eleven_onerror eleven_onclose twilio_onmessage twilio_onerror
    twilio_onclose.
End Handlers.

End Part000.

(** ** src/unnamed/part_001: binary audio, a queue of decoded chunks *)

Module Part001.

Section Handlers.
Variable call : Call.

Definition initMessage : js :=
  JObj [("type", JStr "conversation_initiation_client_data");
        ("conversation_config_override",
         JObj [("agent",
                JObj [("prompt",
                       JObj [("prompt",
                              JStr ("The caller's business name is "
                                    ++ businessName call
                                    ++ ". Their phone number is "
                                    ++ phoneNumber call ++ "."))]);
                      ("first_message",
                       JStr ("Hi " ++ businessName call
                             ++ "! Thanks for calling. How can I help you today?"))])])].

(** [twilioSocket.onopen], lines 37-50. *)
Definition twilio_onopen : M (list byte) unit :=
  log ;;; modify (set_fetchPending true).

(** [twilioSocket.onopen], lines 52-139. *)
Definition fetch_settled (r : FetchResult) : M (list byte) unit :=
  try_catch
    (match r with
     | FetchRejected => throw
     | ResponseNotOk => log ;;; twilio_close
     | ResponseOk connects =>
         log ;;;
         (if connects then modify (set_elevenlabsSocket (Some CONNECTING))
          else throw)
     end)
    (log ;;; twilio_close).

(** [while (audioBuffer.length > 0) { ... audioBuffer.shift() ... }],
    lines 88-93; a [Uint8Array] is an object, hence truthy. *)
Fixpoint drain (buffered : list (list byte)) : M (list byte) unit :=
  match buffered with
  | [] => ret tt
  | bufferedAudio :: rest =>
      modify (set_audioBuffer rest) ;;;
      eleven_send (BinaryFrame bufferedAudio) ;;;
      drain rest
  end.

(** [elevenlabsSocket.onopen], lines 67-94. *)
Definition eleven_onopen : M (list byte) unit :=
  log ;;;
  eleven_send (TextFrame (stringify initMessage)) ;;;
  modify (set_elevenlabsReady true) ;;;
  log ;;;
  buffered <- read audioBuffer ;;
  drain buffered.

(** [elevenlabsSocket.onmessage], lines 96-123.  On a [Blob] the work is
    left to the [then] callback of [arrayBuffer()], [blob_read]. *)
Definition eleven_onmessage (d : MessageData) : M (list byte) unit :=
  try_catch
    (match d with
     | BlobData bytes => modify (fun s => set_blobReads (blobReads s ++ [bytes]) s)
     | _ => message <- lift (JSON_parse d) ;; log
     end)
    log.

(** Lines 100-114. *)
Definition blob_read (audioData : list byte) : M (list byte) unit :=
  let base64Audio := JStr (encode_audio audioData) in
  tw_open <- twilio_is_open ;;
  sid <- read streamSid ;;
  if tw_open && truthy sid then twilio_send (media_frame sid base64Audio)
  else ret tt.

(** [elevenlabsSocket.onerror], lines 125-127. *)
Definition eleven_onerror : M (list byte) unit := log.

(** [elevenlabsSocket.onclose], lines 129-134. *)
Definition eleven_onclose : M (list byte) unit :=
  log ;;;
  tw_open <- twilio_is_open ;;
  if tw_open then twilio_close else ret tt.

(** [twilioSocket.onmessage], lines 142-168. *)
Definition twilio_onmessage (d : MessageData) : M (list byte) unit :=
  try_catch
    (message <- lift (JSON_parse d) ;;
     event <- lift (get message "event") ;;
     if is_str event "start" then
       start <- lift (get message "start") ;;
       sid <- lift (get start "streamSid") ;;
       modify (set_streamSid sid) ;;;
       log
     else if is_str event "media" then
       media <- lift (get message "media") ;;
       payload <- lift (get media "payload") ;;
       audioData <- lift (decode_payload payload) ;;
       ready <- read elevenlabsReady ;;
       el_open <- eleven_is_open ;;
       if ready && el_open then eleven_send (BinaryFrame audioData)
       else modify (fun s => set_audioBuffer (audioBuffer s ++ [audioData]) s)
     else if is_str event "stop" then
       log ;;;
       el_open <- eleven_is_open ;;
       if el_open then eleven_close else ret tt
     else ret tt)
    log.

(** [twilioSocket.onerror], lines 170-172. *)
Definition twilio_onerror : M (list byte) unit := log.

(** [twilioSocket.onclose], lines 174-179. *)
Definition twilio_onclose : M (list byte) unit :=
  log ;;;
  el_open <- eleven_is_open ;;
  if el_open then eleven_close else ret tt.

Definition handlers : Handlers (list byte) :=
  mkHandlers (list byte) twilio_onopen fetch_settled eleven_onopen
    eleven_onmessage blob_read eleven_onerror eleven_onclose twilio_onmessage
    twilio_onerror twilio_onclose.
End Handlers.

End Part001.

(** ** Reading a run of events *)

(** The [streamSid] a caller event records: the event is a parsed message
    whose [event] is "start" and whose [start.streamSid] can be read. *)
Definition start_sid (e : Event) : option js :=
  match e with
  | TwilioMessage (TextData (Normal message)) =>
      match get message "event" with
      | Normal event =>
          if is_str event "start" then
            match get message "start" with
            | Normal start =>
                match get start "streamSid" with
                | Normal sid => Some sid
                | Throw => None
                end
            | Throw => None
            end
          else None
      | Throw => None
      end
  | _ => None
  end.

Definition start_sids (evs : list Event) : list js :=
  flat_map (fun e => match start_sid e with Some sid => [sid] | None => [] end) evs.

(** The audio payload of a caller [media] event, as text and decoded. *)
Definition media_payload (e : Event) : option js :=
  match e with
  | TwilioMessage (TextData (Normal message)) =>
      match get message "event" with
      | Normal event =>
          if is_str event "media" then
            match get message "media" with
            | Normal media =>
                match get media "payload" with
                | Normal payload => Some payload
                | Throw => None
                end
            | Throw => None
            end
          else None
      | Throw => None
      end
  | _ => None
  end.

Definition media_unit (e : Event) : option (list byte) :=
  match media_payload e with
  | Some payload =>
      match decode_payload payload with
      | Normal bytes => Some bytes
      | Throw => None
      end
  | None => None
  end.

Definition units_of {A} (unit_of : Event -> option A) (evs : list Event) : list A :=
  flat_map (fun e => match unit_of e with Some u => [u] | None => [] end) evs.

(** The type of a parsed agent event, and the identifier of a [ping]. *)
Definition has_type (message : js) (type : string) : bool :=
  match get message "type" with
  | Normal t => is_str t type
  | Throw => false
  end.

Definition ping_event_id (message : js) : js :=
  get_opt (get_opt message "ping_event") "event_id".

Definition agent_event (message : js) : Event :=
  ElevenMessage (TextData (Normal message)).

(** A frame to the caller tagged with the session identifier [sid]. *)
Definition tagged (sid : js) (f : Frame) : Prop :=
  f = clear_frame sid \/ exists payload, f = media_frame sid payload.

(** The caller is streaming: the session identifier is set and the caller
    connection is open. *)
Definition streaming {B} (s : State B) : Prop :=
  truthy (streamSid s) = true /\ twilioSocket s = OPEN.

Section Runs.
Context {B : Type} (h : Handlers B).

(** Every event of the run is one the runtime can deliver when it occurs. *)
Fixpoint valid (evs : list Event) (s : State B) : bool :=
  match evs with
  | [] => true
  | e :: rest => enabled e s && valid rest (step h e s)
  end.

(** The claims of the specification, as statements about a revision. *)

(** Audio that arrives before the agent leg is ready reaches the agent
    right after the session-initialisation message, in arrival order. *)
Definition delivers_pending (unit_of : Event -> option Frame) (init_frame : Frame) : Prop :=
  forall evs,
    valid evs init = true ->
    enabled ElevenOpen (run h evs init) = true ->
    toEleven (run h (evs ++ [ElevenOpen]) init)
    = init_frame :: units_of unit_of evs.

(** Frames to the caller carry the recorded session identifier. *)
Definition tags_frames : Prop :=
  forall evs,
    let s := run h evs init in
    Forall (fun f => exists sid,
                In sid (start_sids evs) /\ truthy sid = true /\ tagged sid f)
           (toTwilio s)
    /\ (start_sids evs = [] -> toTwilio s = [])
    /\ (forall e, exists new,
           toTwilio (step h e s) = toTwilio s ++ new /\
           (truthy (streamSid s) = false -> new = []) /\
           Forall (tagged (streamSid s)) new).

(** A ping that carries an identifier is answered by one pong. *)
Definition answers_pings (carried : js -> Prop) : Prop :=
  forall s message,
    elevenlabsSocket s = Some OPEN ->
    has_type message "ping" = true ->
    carried (ping_event_id message) ->
    step h (agent_event message) s
    = set_toEleven (toEleven s ++ [pong_frame (ping_event_id message)]) s.

(** An interruption puts one clear frame on the caller connection. *)
Definition clears_on_interruption (guard : State B -> Prop) : Prop :=
  forall evs message,
    let s := run h evs init in
    valid evs init = true ->
    elevenlabsSocket s = Some OPEN ->
    has_type message "interruption" = true ->
    guard s ->
    step h (agent_event message) s
    = set_toTwilio (toTwilio s ++ [clear_frame (streamSid s)]) s.

(** The session identifier, once set, stays as it is. *)
Definition sid_never_overwritten : Prop :=
  forall evs e,
    let s := run h evs init in
    truthy (streamSid s) = true ->
    streamSid (step h e s) = streamSid s.

(** The session identifier follows the [start] events: an event that is
    no [start] keeps it, a delivered [start] sets it. *)
Definition sid_follows_start : Prop :=
  forall e s,
    (start_sid e = None -> streamSid (step h e s) = streamSid s) /\
    (forall sid, start_sid e = Some sid -> enabled e s = true ->
                 streamSid (step h e s) = sid).

(** An event the bridge absorbs: nothing is sent, no socket changes, and
    the events after it are processed as if it had not arrived. *)
Definition absorbed (e : Event) (s : State B) : Prop :=
  step h e s = s /\ forall post, run h (e :: post) s = run h post s.

(** After a failed credential exchange the caller is closed and the agent
    leg is never opened nor ready. *)
Definition failed_exchange_closes : Prop :=
  forall pre post,
    fetchPending (run h pre init) = true ->
    let s := run h (pre ++ FetchSettled ResponseNotOk :: post) init in
    (twilioSocket s = CLOSING \/ twilioSocket s = CLOSED) /\
    elevenlabsSocket s = None /\
    elevenlabsReady s = false /\
    toEleven s = [].

(** After either leg has closed no connection of the pair is open. *)
Definition close_cascades : Prop :=
  forall evs,
    valid evs init = true ->
    let s := run h evs init in
    (twilioSocket s = CLOSED -> elevenlabsSocket s <> Some OPEN) /\
    (elevenlabsSocket s = Some CLOSED -> twilioSocket s <> OPEN).
End Runs.

(** ** Invariants of a run *)

(** The state of the agent leg before it opens. *)
Definition agent_idle {B} (s : State B) : Prop :=
  (twilioSocket s = CONNECTING -> fetchPending s = false /\ elevenlabsSocket s = None) /\
  (fetchPending s = true -> elevenlabsSocket s = None) /\
  (elevenlabsSocket s = None \/ elevenlabsSocket s = Some CONNECTING ->
   elevenlabsReady s = false /\ toEleven s = []).

(** The state after a failed credential exchange. *)
Definition agent_failed {B} (s : State B) : Prop :=
  fetchPending s = false /\
  elevenlabsSocket s = None /\
  elevenlabsReady s = false /\
  toEleven s = [] /\
  (twilioSocket s = CLOSING \/ twilioSocket s = CLOSED).

(** A queued payload together with the chunk it decodes to. *)
Definition decodes_to (payload : js) (f : Frame) : Prop :=
  exists bytes, decode_payload payload = Normal bytes /\ f = BinaryFrame bytes.

(** What part_000 forwards for a caller event: the decoded payload of a
    [media] event with a truthy payload. *)
Definition unit000 (e : Event) : option Frame :=
  match media_payload e with
  | Some payload =>
      if truthy payload then
        match decode_payload payload with
        | Normal bytes => Some (BinaryFrame bytes)
        | Throw => None
        end
      else None
  | None => None
  end.

(** What part_001 forwards: the decoded payload of a [media] event. *)
Definition unit001 (e : Event) : option Frame :=
  option_map BinaryFrame (media_unit e).

(** What media-bridge.ts forwards once ready: the payload, re-wrapped. *)
Definition unit_json (e : Event) : option Frame :=
  option_map (fun payload =>
                TextFrame (stringify (JObj [("user_audio_chunk", payload)])))
             (media_payload e).

Definition queued000 (s : State js) (units : list Frame) : Prop :=
  elevenlabsReady s = false ->
  toEleven s = [] /\ Forall2 decodes_to (audioBuffer s) units.

Definition queued001 (s : State (list byte)) (units : list Frame) : Prop :=
  elevenlabsReady s = false ->
  toEleven s = [] /\ map BinaryFrame (audioBuffer s) = units.

(** ** Concrete calls *)

(** [decodeURIComponent] on a name without escape sequences. *)
Definition plain_decode (s : string) : completion string := Normal s.

Definition acme : Call := mkCall "Acme" "+441234567890".

Definition start_event (sid : js) : Event :=
  TwilioMessage (TextData (Normal
    (JObj [("event", JStr "start"); ("start", JObj [("streamSid", sid)])]))).

Definition media_event (payload : js) : Event :=
  TwilioMessage (TextData (Normal
    (JObj [("event", JStr "media"); ("media", JObj [("payload", payload)])]))).

Definition ping_message (event_id : js) : js :=
  JObj [("type", JStr "ping"); ("ping_event", JObj [("event_id", event_id)])].

Definition interruption_message : js := JObj [("type", JStr "interruption")].

Definition audio_message (base64 : string) : js :=
  JObj [("type", JStr "audio");
        ("audio_event", JObj [("audio_base_64", JStr base64)])].

(** The agent leg is connected and initialised. *)
Definition connect : list Event :=
  [TwilioOpen; FetchSettled (ResponseOk true); ElevenOpen].

(** The caller sends audio while the credential exchange is pending. *)
Definition early_audio : list Event :=
  [TwilioOpen; start_event (JStr "SID1"); media_event (JStr "AAAA");
   FetchSettled (ResponseOk true); media_event (JStr "AQID")].

(** The caller hangs up while the credential exchange is pending. *)
Definition hangup_during_exchange : list Event :=
  [TwilioOpen; TwilioClose; FetchSettled (ResponseOk true); ElevenOpen].

(** The caller hangs up while the agent connection is being opened. *)
Definition hangup_during_connect : list Event :=
  [TwilioOpen; FetchSettled (ResponseOk true); TwilioClose; ElevenOpen].

(** ** The request handler around the bridge *)

Module Serve.

(** What the [serve] callback reads of a request: the [upgrade] header,
    the path and the query parameters of its URL ([null] when absent), and
    whether [Deno.upgradeWebSocket] accepts the request (it throws when the
    handshake headers are missing). *)
Record Request : Set := mkRequest {
  upgrade : option string;
  pathname : string;
  agent_id : option string;
  business_name : option string;
  phone_number : option string;
  call_sid : option string;
  handshake : bool
}.

(** What the callback returns: a plain response, or the response of the
    upgrade, with the handlers of a bridge installed for the call. *)
Inductive Response : Set :=
| Plain (status : nat) (body : string)
| Upgraded (agentId callSid : string) (call : Call).

(** [String.prototype.toLowerCase] on a header value, a string of code units
    below 256: A-Z and the Latin-1 capitals U+00C0-U+00DE (but U+00D7) move
    up by 32. *)
Definition lower (c : ascii) : ascii :=
  let x := N_of_ascii c in
  if ((65 <=? x) && (x <=? 90)
      || (192 <=? x) && (x <=? 222) && negb (x =? 215))%N
  then ascii_of_N (x + 32)
  else c.

Definition toLowerCase (s : string) : string :=
  string_of_list_ascii (map lower (list_ascii_of_string s)).

(** [x || d] on a [string | null] *)
Definition or_string (x : option string) (d : string) : string :=
  match x with
  | Some s => if s =? "" then d else s
  | None => d
  end.

(** [!x] on a [string | null | undefined] *)
Definition not_string (x : option string) : bool :=
  match x with
  | Some s => s =? ""
  | None => true
  end.

(** src/media-bridge.ts, lines 5-27 and 190-198. *)
Definition media_bridge (ELEVENLABS_API_KEY : option string) (req : Request)
  : completion Response :=
  let upgradeHeader := or_string (upgrade req) "" in
  if toLowerCase upgradeHeader =? "websocket" then
    let agentId := agent_id req in
    let businessName := or_string (business_name req) "there" in
    let phoneNumber := or_string (phone_number req) "" in
    let callSid := or_string (call_sid req) "" in
    if not_string agentId then Normal (Plain 400 "Missing agent_id")
    else if not_string ELEVENLABS_API_KEY then
      Normal (Plain 500 "Server configuration error")
    else if handshake req then
      Normal (Upgraded (or_string agentId "") callSid (mkCall businessName phoneNumber))
    else Throw
  else if (pathname req =? "/health") || (pathname req =? "/") then
    Normal (Plain 200 "OK")
  else Normal (Plain 426 "Expected WebSocket").

(** src/unnamed/part_000, lines 5-28 and 169-174: the business name is
    decoded before anything is checked, and every other request is answered
    200. *)
Definition part_000 (decodeURIComponent : string -> completion string)
    (ELEVENLABS_API_KEY : option string) (req : Request) : completion Response :=
  let upgradeHeader := or_string (upgrade req) "" in
  if toLowerCase upgradeHeader =? "websocket" then
    let agentId := agent_id req in
    match decodeURIComponent (or_string (business_name req) "there") with
    | Throw => Throw
    | Normal businessName =>
        let phoneNumber := or_string (phone_number req) "" in
        let callSid := or_string (call_sid req) "" in
        if not_string agentId then Normal (Plain 400 "Missing agent_id")
        else if not_string ELEVENLABS_API_KEY then
          Normal (Plain 500 "Server configuration error")
        else if handshake req then
          Normal (Upgraded (or_string agentId "") callSid
                    (mkCall businessName phoneNumber))
        else Throw
    end
  else Normal (Plain 200 "OK").

(** src/unnamed/part_001, lines 5-30 and 181-190. *)
Definition part_001 (ELEVENLABS_API_KEY : option string) (req : Request)
  : completion Response :=
  let upgradeHeader := or_string (upgrade req) "" in
  if toLowerCase upgradeHeader =? "websocket" then
    let agentId := agent_id req in
    let businessName := or_string (business_name req) "there" in
    let phoneNumber := or_string (phone_number req) "" in
    let callSid := or_string (call_sid req) "" in
    if not_string agentId then Normal (Plain 400 "Missing agent_id")
    else if not_string ELEVENLABS_API_KEY then
      Normal (Plain 500 "Server configuration error")
    else if handshake req then
      Normal (Upgraded (or_string agentId "") callSid (mkCall businessName phoneNumber))
    else Throw
  else if (pathname req =? "/health") || (pathname req =? "/") then
    Normal (Plain 200 "OK")
  else Normal (Plain 426 "Expected WebSocket").

(** The request asks for a WebSocket upgrade. *)
Definition wants_upgrade (req : Request) : bool :=
  toLowerCase (or_string (upgrade req) "") =? "websocket".

(** The response starts a bridge. *)
Definition starts_bridge (r : completion Response) : bool :=
  match r with
  | Normal (Upgraded _ _ _) => true
  | _ => false
  end.

End Serve.

(** ** Further readings of events and states *)

(** How far a socket is in its life. *)
Definition socket_rank (r : ReadyState) : nat :=
  match r with
  | CONNECTING => 1
  | OPEN => 2
  | CLOSING => 3
  | CLOSED => 4
  end.

(** The same for the agent socket, which does not exist at first. *)
Definition agent_rank (o : option ReadyState) : nat :=
  match o with
  | None => 0
  | Some r => socket_rank r
  end.

(** The caller event is a parsed message whose [event] is "stop". *)
Definition is_stop (e : Event) : bool :=
  match e with
  | TwilioMessage (TextData (Normal message)) =>
      match get message "event" with
      | Normal event => is_str event "stop"
      | Throw => false
      end
  | _ => false
  end.

(** The frame media-bridge.ts sends to the agent for a caller payload. *)
Definition chunk_frame (payload : js) : Frame :=
  TextFrame (stringify (JObj [("user_audio_chunk", payload)])).

Definition is_binary (f : Frame) : Prop := exists data, f = BinaryFrame data.

Definition is_pong (f : Frame) : Prop := exists event_id, f = pong_frame event_id.

Definition decodable (payload : js) : Prop :=
  exists bytes, decode_payload payload = Normal bytes.

(** A credential exchange that does not lead to an agent connection. *)
Definition exchange_failed (r : FetchResult) : bool :=
  match r with
  | ResponseOk true => false
  | _ => true
  end.

Section MoreRuns.
Context {B : Type} (h : Handlers B).

(** Readiness, once reached, is kept. *)
Definition ready_is_kept : Prop :=
  forall evs s, elevenlabsReady s = true -> elevenlabsReady (run h evs s) = true.

(** Sockets only move forward in their life, and the agent socket, once
    created, is never replaced. *)
Definition sockets_advance : Prop :=
  forall evs e,
    let s := run h evs init in
    socket_rank (twilioSocket s) <= socket_rank (twilioSocket (step h e s)) /\
    agent_rank (elevenlabsSocket s) <= agent_rank (elevenlabsSocket (step h e s)).

(** A frame is put on a connection only while that connection is open. *)
Definition sends_on_open_only : Prop :=
  forall e s,
    (toTwilio (step h e s) = toTwilio s \/ twilioSocket (step h e s) = OPEN) /\
    (toEleven (step h e s) = toEleven s \/ elevenlabsSocket (step h e s) = Some OPEN).

(** What the agent receives is nothing, or the initialisation message
    followed by frames of a given kind. *)
Definition init_comes_first (init_frame : Frame) (later : Frame -> Prop) : Prop :=
  forall evs,
    let s := run h evs init in
    (elevenlabsReady s = false /\ toEleven s = []) \/
    (elevenlabsReady s = true /\
     exists rest, toEleven s = init_frame :: rest /\ Forall later rest).

(** While the agent connection is open the bridge is ready and nothing
    waits in the queue. *)
Definition nothing_waits_while_open : Prop :=
  forall evs,
    let s := run h evs init in
    elevenlabsSocket s = Some OPEN ->
    elevenlabsReady s = true /\ audioBuffer s = [].

(** A credential exchange that fails in any way ends the call. *)
Definition any_failed_exchange_closes : Prop :=
  forall r pre post,
    exchange_failed r = true ->
    fetchPending (run h pre init) = true ->
    let s := run h (pre ++ FetchSettled r :: post) init in
    (twilioSocket s = CLOSING \/ twilioSocket s = CLOSED) /\
    elevenlabsSocket s = None /\
    elevenlabsReady s = false /\
    toEleven s = [].

(** A [stop] event and the close of the caller connection leave no open
    agent connection behind, change nothing else, and may be repeated. *)
Definition closes_open_agent (e : Event) : Prop :=
  forall s,
    enabled e s = true ->
    elevenlabsSocket (step h e s) <> Some OPEN /\
    (elevenlabsSocket s <> Some OPEN ->
     elevenlabsSocket (step h e s) = elevenlabsSocket s \/
     elevenlabsSocket (step h e s) = Some CLOSING) /\
    toEleven (step h e s) = toEleven s /\
    toTwilio (step h e s) = toTwilio s /\
    streamSid (step h e s) = streamSid s /\
    elevenlabsReady (step h e s) = elevenlabsReady s /\
    audioBuffer (step h e s) = audioBuffer s.

(** The close of the agent connection leaves the caller connection
    closing or closed. *)
Definition agent_close_cascades : Prop :=
  forall s,
    enabled ElevenClose s = true ->
    let s' := step h ElevenClose s in
    elevenlabsSocket s' = Some CLOSED /\
    twilioSocket s' <> OPEN /\
    (twilioSocket s = OPEN -> twilioSocket s' = CLOSING) /\
    toEleven s' = toEleven s /\ toTwilio s' = toTwilio s.

(** A caller message never writes to the caller connection nor changes
    its state. *)
Definition caller_message_stays_inbound : Prop :=
  forall d s,
    toTwilio (step h (TwilioMessage d) s) = toTwilio s /\
    twilioSocket (step h (TwilioMessage d) s) = twilioSocket s.
End MoreRuns.

(** The agent leg has received nothing and is not ready, or is past its
    opening and has received the initialisation message first. *)
Definition initialised {B} (init_frame : Frame) (later : Frame -> Prop)
    (s : State B) : Prop :=
  (elevenlabsReady s = false /\ toEleven s = []) \/
  (elevenlabsReady s = true /\
   elevenlabsSocket s <> None /\ elevenlabsSocket s <> Some CONNECTING /\
   exists rest, toEleven s = init_frame :: rest /\ Forall later rest).

(** What media-bridge.ts sends to the agent after the initialisation
    message: a re-wrapped caller payload or a pong. *)
Definition json_frame (f : Frame) : Prop :=
  (exists payload, f = chunk_frame payload) \/ is_pong f.

Definition not_whitespace (c : ascii) : bool := negb (is_ascii_whitespace c).

(** The text of a payload once its ASCII whitespace is removed. *)
Definition compact (s : string) : list ascii :=
  filter not_whitespace (list_ascii_of_string s).

(** The base64 text of a chunk without its [=] padding. *)
Definition unpadded (audioData : list byte) : list ascii :=
  map b64_char
    (sextets_of_bytes
       (map N_of_ascii (list_ascii_of_string (string_of_list_byte audioData)))).

(** What a request must bring for a bridge to be started on it. *)
Definition upgrade_guard (key : option string) (req : Serve.Request)
    (agentId callSid : string) : Prop :=
  Serve.wants_upgrade req = true /\
  Serve.agent_id req = Some agentId /\ agentId <> "" /\
  Serve.not_string key = false /\
  Serve.handshake req = true /\
  callSid = Serve.or_string (Serve.call_sid req) "".

(** The answer to a request that asks for no upgrade. *)
Definition plain_answer (req : Serve.Request) : Serve.Response :=
  if (Serve.pathname req =? "/health") || (Serve.pathname req =? "/")
  then Serve.Plain 200 "OK"
  else Serve.Plain 426 "Expected WebSocket".

(** An upgrade request on the health path, without a business name. *)
Definition upgrade_request : Serve.Request :=
  Serve.mkRequest (Some "WebSocket") "/health" (Some "agent_1") None None
    (Some "CA1") true.

Definition stop_event : Event :=
  TwilioMessage (TextData (Normal (JObj [("event", JStr "stop")]))).

(** The agent leg is connected and the caller has started its stream. *)
Definition streaming_call : list Event :=
  connect ++ [start_event (JStr "SID1")].

(** * Properties *)

(** ** The codec: [atob] undoes [btoa] *)

Module Base64Facts.

Local Open Scope N_scope.

Lemma list_ind3 {A} (P : list A -> Prop) :
  P [] -> (forall a, P [a]) -> (forall a b, P [a; b]) ->
  (forall a b c rest, P rest -> P (a :: b :: c :: rest)) ->
  forall l, P l.
Proof.
  intros H0 H1 H2 H3.
  fix IH 1. intros [|a [|b [|c rest]]].
  - exact H0.
  - apply H1.
  - apply H2.
  - apply H3, IH.
Qed.

Lemma split_div (a d : N) : d <> 0 ->
  exists q r, a = d * q + r /\ r < d /\ a / d = q /\ a mod d = r.
Proof.
  intros Hd. exists (a / d), (a mod d). repeat split.
  - apply N.div_mod; assumption.
  - apply N.mod_lt; assumption.
Qed.

(** Names the quotient and the remainder of every division of a variable
    by a constant, leaving linear facts about them. *)
Ltac split_divs :=
  repeat match goal with
  | |- context [?a / ?d] =>
      is_var a;
      let q := fresh "q" in let r := fresh "r" in
      let E := fresh "E" in let L := fresh "L" in
      let Hq := fresh "Hq" in let Hr := fresh "Hr" in
      destruct (split_div a d ltac:(discriminate)) as (q & r & E & L & Hq & Hr);
      rewrite ?Hq, ?Hr; clear Hq Hr
  | |- context [?a mod ?d] =>
      is_var a;
      let q := fresh "q" in let r := fresh "r" in
      let E := fresh "E" in let L := fresh "L" in
      let Hq := fresh "Hq" in let Hr := fresh "Hr" in
      destruct (split_div a d ltac:(discriminate)) as (q & r & E & L & Hq & Hr);
      rewrite ?Hq, ?Hr; clear Hq Hr
  end.

Lemma group3 (a b c : N) : is_byte a -> is_byte b -> is_byte c ->
  let n := ((a / 4 * 64 + (a mod 4 * 16 + b / 16)) * 64
            + (b mod 16 * 4 + c / 64)) * 64 + c mod 64 in
  n / 65536 = a /\ (n / 256) mod 256 = b /\ n mod 256 = c.
Proof.
  intros Ha Hb Hc n. subst n. unfold is_byte in *. split_divs.
  match goal with
  | |- ?n / _ = _ /\ _ =>
      replace n with (65536 * a + 256 * b + c) by lia
  end.
  repeat split.
  - symmetry. apply N.div_unique with (r := 256 * b + c); lia.
  - replace ((65536 * a + 256 * b + c) / 256) with (256 * a + b).
    + symmetry. apply N.mod_unique with (q := a); lia.
    + apply N.div_unique with (r := c); lia.
  - symmetry. apply N.mod_unique with (q := 256 * a + b); lia.
Qed.

Lemma group2 (a b : N) : is_byte a -> is_byte b ->
  let n := ((a / 4 * 64 + (a mod 4 * 16 + b / 16)) * 64 + b mod 16 * 4) / 4 in
  n / 256 = a /\ n mod 256 = b.
Proof.
  intros Ha Hb n. subst n. unfold is_byte in *. split_divs.
  match goal with
  | |- (?n / 4) / _ = _ /\ _ =>
      replace (n / 4) with (256 * a + b)
        by (apply N.div_unique with (r := 0); lia)
  end.
  split.
  - symmetry. apply N.div_unique with (r := b); lia.
  - symmetry. apply N.mod_unique with (q := a); lia.
Qed.

Lemma group1 (a : N) : is_byte a -> (a / 4 * 64 + a mod 4 * 16) / 16 = a.
Proof.
  unfold is_byte. intros Ha. split_divs.
  symmetry. apply N.div_unique with (r := 0); lia.
Qed.

Lemma bytes_of_sextets_of_bytes (l : list N) :
  Forall is_byte l -> bytes_of_sextets (sextets_of_bytes l) = l.
Proof.
  induction l as [|a|a b|a b c rest IH] using list_ind3; intros H.
  - reflexivity.
  - inversion H; subst. cbn [sextets_of_bytes bytes_of_sextets].
    now rewrite group1.
  - inversion H as [|? ? Ha H']; subst. inversion H' as [|? ? Hb _]; subst.
    cbn [sextets_of_bytes bytes_of_sextets].
    destruct (group2 a b Ha Hb) as [E1 E2]. cbv zeta in E1, E2.
    now rewrite E1, E2.
  - inversion H as [|? ? Ha H1]; subst. inversion H1 as [|? ? Hb H2]; subst.
    inversion H2 as [|? ? Hc H3]; subst.
    cbn [sextets_of_bytes bytes_of_sextets].
    destruct (group3 a b c Ha Hb Hc) as (E1 & E2 & E3). cbv zeta in E1, E2, E3.
    now rewrite E1, E2, E3, IH.
Qed.

Lemma sextets_of_bytes_bounded (l : list N) :
  Forall is_byte l -> Forall is_sextet (sextets_of_bytes l).
Proof.
  induction l as [|a|a b|a b c rest IH] using list_ind3; intros H;
    cbn [sextets_of_bytes].
  - constructor.
  - inversion H; subst. unfold is_byte, is_sextet in *.
    repeat constructor; split_divs; lia.
  - inversion H as [|? ? Ha H']; subst. inversion H' as [|? ? Hb _]; subst.
    unfold is_byte, is_sextet in *.
    repeat constructor; split_divs; lia.
  - inversion H as [|? ? Ha H1]; subst. inversion H1 as [|? ? Hb H2]; subst.
    inversion H2 as [|? ? Hc H3]; subst.
    specialize (IH H3). unfold is_byte, is_sextet in *.
    repeat (constructor; [split_divs; lia|]). exact IH.
Qed.

(** The alphabet: 64 characters, none of them whitespace or [=], each at
    the position [b64_index] gives. *)
Lemma b64_index_nth (k : nat) :
  (k < 64)%nat -> b64_index (nth k alphabet "A"%char) = Some (N.of_nat k).
Proof.
  intros Hk.
  do 64 (destruct k as [|k]; [reflexivity|]). lia.
Qed.

Lemma b64_index_char (n : N) : is_sextet n -> b64_index (b64_char n) = Some n.
Proof.
  unfold is_sextet, b64_char. intros H.
  rewrite b64_index_nth by lia. now rewrite N2Nat.id.
Qed.

Lemma b64_char_plain (n : N) :
  is_ascii_whitespace (b64_char n) = false /\
  Ascii.eqb (b64_char n) pad_char = false.
Proof.
  unfold b64_char.
  assert (H : Forall (fun c => is_ascii_whitespace c = false /\
                               Ascii.eqb c pad_char = false)
                     ("A"%char :: alphabet)).
  { repeat constructor. }
  rewrite Forall_forall in H. apply H.
  destruct (nth_in_or_default (N.to_nat n) alphabet "A"%char) as [Hin | ->].
  - right. exact Hin.
  - left. reflexivity.
Qed.

Lemma indices_chars (vs : list N) :
  Forall is_sextet vs -> indices (map b64_char vs) = Some vs.
Proof.
  induction 1 as [|v vs Hv _ IH]; cbn [map indices].
  - reflexivity.
  - now rewrite (b64_index_char v Hv), IH.
Qed.

Lemma chars_plain (vs : list N) : Forall plain (map b64_char vs).
Proof.
  induction vs as [|v vs IH]; cbn [map]; constructor.
  - apply b64_char_plain.
  - exact IH.
Qed.

Lemma padding_cases (n : nat) :
  padding n = [] \/ padding n = [pad_char] \/ padding n = [pad_char; pad_char].
Proof.
  unfold padding. destruct (n mod 3)%nat as [|[|[|k]]]; auto.
Qed.

Lemma filter_plain (xs pad : list ascii) :
  Forall plain xs ->
  pad = [] \/ pad = [pad_char] \/ pad = [pad_char; pad_char] ->
  filter (fun c => negb (is_ascii_whitespace c)) (xs ++ pad) = xs ++ pad.
Proof.
  intros Hxs Hpad. induction Hxs as [|x xs [Hx _] _ IH]; cbn [app filter].
  - destruct Hpad as [-> | [-> | ->]]; reflexivity.
  - now rewrite Hx, IH.
Qed.

Lemma strip_padding_plain (xs pad : list ascii) :
  Forall plain xs ->
  pad = [] \/ pad = [pad_char] \/ pad = [pad_char; pad_char] ->
  (List.length (xs ++ pad) mod 4 = 0)%nat ->
  strip_padding (xs ++ pad) = xs.
Proof.
  intros Hxs Hpad Hlen. unfold strip_padding.
  rewrite Hlen. cbn [Nat.eqb]. rewrite rev_app_distr.
  assert (Hrev : Forall plain (rev xs)).
  { rewrite Forall_forall in *. intros c Hc. apply Hxs. now apply in_rev. }
  destruct Hpad as [-> | [-> | ->]]; cbn [rev app].
  - rewrite app_nil_r. destruct (rev xs) as [|c1 r1] eqn:E; [reflexivity|].
    inversion Hrev as [|? ? [_ Hc] _]; subst. now rewrite Hc.
  - rewrite Ascii.eqb_refl.
    destruct (rev xs) as [|c2 r2] eqn:E.
    + apply (f_equal (@rev ascii)) in E. rewrite rev_involutive in E.
      now subst.
    + inversion Hrev as [|? ? [_ Hc] _]; subst. rewrite Hc.
      now rewrite <- E, rev_involutive.
  - rewrite !Ascii.eqb_refl. apply rev_involutive.
Qed.

(** The encoded text has a length that is a multiple of four, of which the
    part before the padding is never one more than a multiple of four. *)
Lemma encoded_length (l : list N) :
  ((List.length (sextets_of_bytes l) + List.length (padding (List.length l))) mod 4 = 0
   /\ List.length (sextets_of_bytes l) mod 4 <> 1)%nat.
Proof.
  induction l as [|a|a b|a b c rest [IH1 IH2]] using list_ind3.
  - split; [reflexivity | discriminate].
  - split; [reflexivity | discriminate].
  - split; [reflexivity | discriminate].
  - cbn [sextets_of_bytes List.length].
    assert (Hpad : padding (S (S (S (List.length rest)))) = padding (List.length rest)).
    { unfold padding.
      replace (S (S (S (List.length rest)))) with (List.length rest + 1 * 3)%nat by lia.
      now rewrite Nat.Div0.mod_add. }
    rewrite Hpad.
    set (n := List.length (sextets_of_bytes rest)) in *.
    set (p := List.length (padding (List.length rest))) in *.
    split.
    + replace (S (S (S (S n))) + p)%nat with (n + p + 1 * 4)%nat by lia.
      now rewrite Nat.Div0.mod_add.
    + replace (S (S (S (S n)))) with (n + 1 * 4)%nat by lia.
      now rewrite Nat.Div0.mod_add.
Qed.

Lemma atob_btoa (s : string) : atob (btoa s) = Normal s.
Proof.
  unfold atob, btoa.
  set (bytes := map N_of_ascii (list_ascii_of_string s)).
  assert (Hbytes : Forall is_byte bytes).
  { subst bytes. apply Forall_forall. intros x Hx.
    apply in_map_iff in Hx. destruct Hx as (c & <- & _).
    apply N_ascii_bounded. }
  pose proof (sextets_of_bytes_bounded bytes Hbytes) as Hsx.
  pose proof (encoded_length bytes) as [Hlen Hlen1].
  rewrite list_ascii_of_string_of_list_ascii.
  rewrite filter_plain by auto using chars_plain, padding_cases.
  rewrite strip_padding_plain;
    [ | apply chars_plain | apply padding_cases
      | now rewrite length_app, length_map ].
  rewrite length_map.
  destruct (Nat.eqb_spec (List.length (sextets_of_bytes bytes) mod 4) 1) as [E | _];
    [contradiction|].
  rewrite indices_chars by assumption.
  rewrite bytes_of_sextets_of_bytes by assumption.
  subst bytes. rewrite map_map.
  rewrite (map_ext _ (fun c => c)) by (intros c; apply ascii_N_embedding).
  now rewrite map_id, string_of_list_ascii_of_string.
Qed.

Lemma decode_encode (audioData : list byte) :
  decode_payload (JStr (encode_audio audioData)) = Normal audioData.
Proof.
  unfold decode_payload, encode_audio. cbn [ToString].
  rewrite atob_btoa. now rewrite list_byte_of_string_of_list_byte.
Qed.

End Base64Facts.

(** ** Stepping through a handler *)

Module StepTactics.

(** Unfolds the event loop and the handlers of the three revisions. *)
Ltac unfold_loop :=
  cbv beta iota zeta delta
    [step deliver enabled exec
     twilio_onopen fetch_settled eleven_onopen eleven_onmessage blob_read
     eleven_onerror eleven_onclose twilio_onmessage twilio_onerror
     twilio_onclose
     MediaBridge.handlers MediaBridge.twilio_onopen MediaBridge.fetch_settled
     MediaBridge.eleven_onopen MediaBridge.eleven_onmessage
     MediaBridge.blob_read MediaBridge.eleven_onerror
     MediaBridge.eleven_onclose MediaBridge.twilio_onmessage
     MediaBridge.twilio_onerror MediaBridge.twilio_onclose
     Part000.handlers Part000.twilio_onopen Part000.fetch_settled
     Part000.eleven_onopen Part000.eleven_onmessage Part000.forward_audio
     Part000.blob_read Part000.eleven_onerror
     Part000.eleven_onclose Part000.twilio_onmessage
     Part000.twilio_onerror Part000.twilio_onclose
     Part001.handlers Part001.twilio_onopen Part001.fetch_settled
     Part001.eleven_onopen Part001.eleven_onmessage
     Part001.blob_read Part001.eleven_onerror
     Part001.eleven_onclose Part001.twilio_onmessage
     Part001.twilio_onerror Part001.twilio_onclose] in *.

(** Unfolds the state-passing operations and the record projections,
    leaving the JavaScript operators and the codec folded. *)
Ltac unfold_ops :=
  cbv beta iota zeta delta
    [bind ret lift read modify try_catch throw log
     twilio_send eleven_send twilio_close eleven_close
     twilio_is_open eleven_is_open JSON_parse
     set_twilioSocket set_elevenlabsSocket set_streamSid
     set_elevenlabsReady set_audioBuffer set_fetchPending set_blobReads
     set_toTwilio set_toEleven
     twilioSocket elevenlabsSocket streamSid elevenlabsReady audioBuffer
     fetchPending blobReads toTwilio toEleven fst snd andb orb negb
     is_open is_closed ws_close option_map] in *.

(** Case analysis on an innermost scrutinee of the goal. *)
Ltac break_match :=
  match goal with
  | |- context [match ?x with _ => _ end] =>
      lazymatch x with
      | context [match _ with _ => _ end] => fail
      | _ => destruct x eqn:?
      end
  end.

Ltac step_cases := repeat (unfold_ops; try break_match).

End StepTactics.
Import StepTactics.

(** ** What follows, for any revision, from facts about one step *)

Module RunFacts.

Lemma run_snoc {B} (h : Handlers B) (evs : list Event) (e : Event) (s : State B) :
  run h (evs ++ [e]) s = step h e (run h evs s).
Proof. unfold run. now rewrite fold_left_app. Qed.

Lemma run_app {B} (h : Handlers B) (evs1 evs2 : list Event) (s : State B) :
  run h (evs1 ++ evs2) s = run h evs2 (run h evs1 s).
Proof. unfold run. now rewrite fold_left_app. Qed.

Lemma start_sids_snoc (evs : list Event) (e : Event) :
  start_sids (evs ++ [e])
  = start_sids evs ++ match start_sid e with Some sid => [sid] | None => [] end.
Proof. unfold start_sids. rewrite flat_map_app. cbn. now rewrite app_nil_r. Qed.

Lemma units_of_snoc {A} (unit_of : Event -> option A) (evs : list Event) (e : Event) :
  units_of unit_of (evs ++ [e])
  = units_of unit_of evs ++ match unit_of e with Some u => [u] | None => [] end.
Proof. unfold units_of. rewrite flat_map_app. cbn. now rewrite app_nil_r. Qed.

Lemma valid_snoc {B} (h : Handlers B) (evs : list Event) (e : Event) (s : State B) :
  valid h (evs ++ [e]) s = valid h evs s && enabled e (run h evs s).
Proof.
  revert s. induction evs as [|e' evs IH]; intros s; cbn [app valid run fold_left].
  - now rewrite andb_true_r.
  - rewrite IH. now rewrite andb_assoc.
Qed.

Section Generic.
Context {B : Type} (h : Handlers B).

Hypothesis sid_change : forall e s,
  streamSid (step h e s) = streamSid s \/
  start_sid e = Some (streamSid (step h e s)).

Hypothesis caller_frames : forall e s, exists new,
  toTwilio (step h e s) = toTwilio s ++ new /\
  (truthy (streamSid s) = false -> new = []) /\
  Forall (tagged (streamSid s)) new.

Hypothesis idle_step : forall e s, agent_idle s -> agent_idle (step h e s).

Hypothesis failed_step : forall e s, agent_failed s -> agent_failed (step h e s).

Hypothesis exchange_fails : forall s,
  agent_idle s -> fetchPending s = true ->
  agent_failed (step h (FetchSettled ResponseNotOk) s).

Lemma recorded_sid (evs : list Event) :
  streamSid (run h evs init) = JNull \/
  In (streamSid (run h evs init)) (start_sids evs).
Proof.
  induction evs as [|e evs IH] using rev_ind.
  - left. reflexivity.
  - rewrite run_snoc, start_sids_snoc.
    destruct (sid_change e (run h evs init)) as [E | E].
    + rewrite E. destruct IH as [IH | IH]; [now left | right].
      apply in_or_app. now left.
    + right. rewrite E. apply in_or_app. right. now left.
Qed.

Lemma frames_tagged (evs : list Event) :
  Forall (fun f => exists sid,
              In sid (start_sids evs) /\ truthy sid = true /\ tagged sid f)
         (toTwilio (run h evs init)).
Proof.
  induction evs as [|e evs IH] using rev_ind.
  - constructor.
  - rewrite run_snoc, start_sids_snoc.
    destruct (caller_frames e (run h evs init)) as (new & -> & Hnil & Hnew).
    apply Forall_app. split.
    + eapply Forall_impl; [|exact IH].
      intros f (sid & Hin & Ht & Hf). exists sid. repeat split; auto.
      apply in_or_app. now left.
    + destruct (truthy (streamSid (run h evs init))) eqn:Ht.
      * eapply Forall_impl; [|exact Hnew].
        intros f Hf. exists (streamSid (run h evs init)).
        repeat split; auto. apply in_or_app. left.
        destruct (recorded_sid evs) as [E | Hin]; [|exact Hin].
        rewrite E in Ht. discriminate.
      * rewrite (Hnil eq_refl). constructor.
Qed.

Lemma tags_frames_holds : tags_frames h.
Proof.
  intros evs s. subst s. split; [apply frames_tagged|]. split.
  - intros Hnone. pose proof (frames_tagged evs) as H. rewrite Hnone in H.
    destruct (toTwilio (run h evs init)) as [|f fs]; [reflexivity|].
    inversion H as [|? ? (sid & [] & _) _].
  - intros e. apply caller_frames.
Qed.

Lemma caller_frames_run (evs : list Event) (s : State B) :
  exists later, toTwilio (run h evs s) = toTwilio s ++ later.
Proof.
  revert s. induction evs as [|e evs IH]; intros s.
  - exists []. cbn. now rewrite app_nil_r.
  - cbn [run fold_left].
    destruct (caller_frames e s) as (new & E & _).
    destruct (IH (step h e s)) as (later & E').
    exists (new ++ later). unfold run in E'. rewrite E', E.
    now rewrite app_assoc.
Qed.

Lemma idle_run (evs : list Event) (s : State B) :
  agent_idle s -> agent_idle (run h evs s).
Proof.
  revert s. induction evs as [|e evs IH]; intros s Hs; [exact Hs|].
  apply IH, idle_step, Hs.
Qed.

Lemma failed_run (evs : list Event) (s : State B) :
  agent_failed s -> agent_failed (run h evs s).
Proof.
  revert s. induction evs as [|e evs IH]; intros s Hs; [exact Hs|].
  apply IH, failed_step, Hs.
Qed.

Lemma idle_init : agent_idle (@init B).
Proof. repeat split; reflexivity || discriminate. Qed.

Lemma failed_exchange_closes_holds : failed_exchange_closes h.
Proof.
  intros pre post Hpending s. subst s.
  rewrite run_app. cbn [run fold_left]. fold (run h post).
  pose proof (idle_run pre init idle_init) as Hidle.
  pose proof (failed_run post _ (exchange_fails _ Hidle Hpending)) as HF.
  destruct HF as (_ & Hel & Hready & Hsent & Htw). auto.
Qed.
End Generic.

End RunFacts.

(** ** The queue loops of the binary revisions *)

Module LoopFacts.

(** [drain] touches only the queue and what was sent to the agent. *)
Lemma drain_frame (l : list (list byte)) (s : State (list byte)) :
  exists c buf sent,
    Part001.drain l s
    = (c, mkState (twilioSocket s) (elevenlabsSocket s) (streamSid s)
            (elevenlabsReady s) buf (fetchPending s) (blobReads s)
            (toTwilio s) (toEleven s ++ sent)).
Proof.
  revert s.
  induction l as [|x l IH]; intros [tw el sid ready buf fp blobs tt te];
    cbn [Part001.drain]; unfold_ops.
  - exists (Normal Datatypes.tt), buf, []. now rewrite app_nil_r.
  - destruct el as [[| | |]|];
      try (exists Throw, l, []; now rewrite app_nil_r).
    destruct (IH (mkState tw (Some OPEN) sid ready l fp blobs tt
                    (te ++ [BinaryFrame x]))) as (c & buf' & sent & E).
    unfold_ops. rewrite E. exists c, buf', (BinaryFrame x :: sent).
    now rewrite <- app_assoc.
Qed.

(** On an open agent connection [drain] sends the whole queue. *)
Lemma drain_open (l : list (list byte)) tw sid ready fp blobs tt te :
  Part001.drain l (mkState tw (Some OPEN) sid ready l fp blobs tt te)
  = (Normal Datatypes.tt,
     mkState tw (Some OPEN) sid ready [] fp blobs tt (te ++ map BinaryFrame l)).
Proof.
  revert te. induction l as [|x l IH]; intros te; cbn [Part001.drain map];
    unfold_ops.
  - now rewrite app_nil_r.
  - rewrite IH. now rewrite <- app_assoc.
Qed.

(** [flush] touches only what was sent to the agent. *)
Lemma flush_frame (l : list js) (s : State js) :
  exists c sent,
    Part000.flush l s
    = (c, mkState (twilioSocket s) (elevenlabsSocket s) (streamSid s)
            (elevenlabsReady s) (audioBuffer s) (fetchPending s) (blobReads s)
            (toTwilio s) (toEleven s ++ sent)).
Proof.
  revert s.
  induction l as [|x l IH]; intros [tw el sid ready buf fp blobs tt te];
    cbn [Part000.flush]; unfold_ops.
  - exists (Normal Datatypes.tt), []. now rewrite app_nil_r.
  - destruct (decode_payload x) as [bytes|];
      [|exists Throw, []; now rewrite app_nil_r].
    destruct el as [[| | |]|];
      try (exists Throw, []; now rewrite app_nil_r).
    destruct (IH (mkState tw (Some OPEN) sid ready buf fp blobs tt
                    (te ++ [BinaryFrame bytes]))) as (c & sent & E).
    unfold_ops. rewrite E. exists c, (BinaryFrame bytes :: sent).
    now rewrite <- app_assoc.
Qed.

(** On an open agent connection [flush] sends the whole queue, decoded. *)
Lemma flush_open (l : list js) (frames : list Frame) tw sid ready buf fp blobs tt te :
  Forall2 decodes_to l frames ->
  Part000.flush l (mkState tw (Some OPEN) sid ready buf fp blobs tt te)
  = (Normal Datatypes.tt,
     mkState tw (Some OPEN) sid ready buf fp blobs tt (te ++ frames)).
Proof.
  intros Hdec. revert te.
  induction Hdec as [|x f l frames (bytes & Hx & ->) _ IH]; intros te;
    cbn [Part000.flush]; unfold_ops.
  - now rewrite app_nil_r.
  - rewrite Hx. rewrite IH. now rewrite <- app_assoc.
Qed.

(** Replaces a queue loop in the goal by the state it leaves. *)
Ltac loop_frame :=
  match goal with
  | |- context [Part001.drain ?l ?s] =>
      let c := fresh "c" in let buf := fresh "buf" in
      let sent := fresh "sent" in let E := fresh "E" in
      destruct (drain_frame l s) as (c & buf & sent & E);
      unfold_ops; rewrite E; clear E
  | |- context [Part000.flush ?l ?s] =>
      let c := fresh "c" in let sent := fresh "sent" in let E := fresh "E" in
      destruct (flush_frame l s) as (c & sent & E);
      unfold_ops; rewrite E; clear E
  end.

Ltac handler_cases := repeat (unfold_ops; first [loop_frame | break_match]).

End LoopFacts.
Import LoopFacts.

(** ** Facts about one step, for each revision *)

Module StepFacts.

Ltac open_step s e :=
  destruct s as [tw el sid ready buf fp blobs sent_tw sent_el];
  destruct e; unfold_loop; unfold start_sid; handler_cases.

Ltac close_frames :=
  first
    [ exists []; split; [symmetry; apply app_nil_r|];
      split; [intros; reflexivity | constructor]
    | eexists; split; [reflexivity|];
      split; [intros; congruence|];
      apply Forall_cons; [|apply Forall_nil];
      first [ left; reflexivity | right; eexists; reflexivity ] ].

Ltac close_idle :=
  unfold agent_idle in *; unfold_ops;
  intuition (subst; try congruence; try discriminate).

Ltac close_failed :=
  unfold agent_failed in *; unfold_ops;
  intuition (subst; try congruence; try discriminate).

Section Revisions.
Variable decodeURIComponent : string -> completion string.
Variable call : Call.

Local Abbreviation h0 := (MediaBridge.handlers decodeURIComponent call).
Local Abbreviation h1 := (Part000.handlers call).
Local Abbreviation h2 := (Part001.handlers call).

Lemma sid_change0 e s :
  streamSid (step h0 e s) = streamSid s \/
  start_sid e = Some (streamSid (step h0 e s)).
Proof. open_step s e; auto. Qed.

Lemma sid_change1 e s :
  streamSid (step h1 e s) = streamSid s \/
  start_sid e = Some (streamSid (step h1 e s)).
Proof. open_step s e; auto. Qed.

Lemma sid_change2 e s :
  streamSid (step h2 e s) = streamSid s \/
  start_sid e = Some (streamSid (step h2 e s)).
Proof. open_step s e; auto. Qed.

Lemma caller_frames0 e s : exists new,
  toTwilio (step h0 e s) = toTwilio s ++ new /\
  (truthy (streamSid s) = false -> new = []) /\
  Forall (tagged (streamSid s)) new.
Proof. open_step s e; close_frames. Qed.

Lemma caller_frames1 e s : exists new,
  toTwilio (step h1 e s) = toTwilio s ++ new /\
  (truthy (streamSid s) = false -> new = []) /\
  Forall (tagged (streamSid s)) new.
Proof. open_step s e; close_frames. Qed.

Lemma caller_frames2 e s : exists new,
  toTwilio (step h2 e s) = toTwilio s ++ new /\
  (truthy (streamSid s) = false -> new = []) /\
  Forall (tagged (streamSid s)) new.
Proof. open_step s e; close_frames. Qed.

Lemma idle_step0 e s : agent_idle s -> agent_idle (step h0 e s).
Proof. intros H. open_step s e; close_idle. Qed.

Lemma idle_step1 e s : agent_idle s -> agent_idle (step h1 e s).
Proof. intros H. open_step s e; close_idle. Qed.

Lemma idle_step2 e s : agent_idle s -> agent_idle (step h2 e s).
Proof. intros H. open_step s e; close_idle. Qed.

Lemma failed_step0 e s : agent_failed s -> agent_failed (step h0 e s).
Proof. intros H. open_step s e; close_failed. Qed.

Lemma failed_step1 e s : agent_failed s -> agent_failed (step h1 e s).
Proof. intros H. open_step s e; close_failed. Qed.

Lemma failed_step2 e s : agent_failed s -> agent_failed (step h2 e s).
Proof. intros H. open_step s e; close_failed. Qed.
End Revisions.

End StepFacts.

(** ** Facts about the JavaScript operators *)

Module JSFacts.

Lemma is_str_excl (v : js) (a b : string) :
  is_str v a = true -> is_str v b = true -> a = b.
Proof.
  destruct v; cbn; try discriminate.
  intros Ha Hb. apply String.eqb_eq in Ha, Hb. congruence.
Qed.

Lemma get_get_opt (v : js) (k : string) (x : js) :
  get v k = Normal x -> get_opt v k = x.
Proof. destruct v; cbn; congruence. Qed.

Lemma get_opt_get (v : js) (k : string) (x : js) :
  get v k = Normal x -> get v k = Normal (get_opt v k).
Proof. destruct v; cbn; congruence. Qed.

Lemma get_throw_opt (v : js) (k : string) :
  get v k = Throw -> get_opt v k = JUndefined.
Proof. destruct v; cbn; congruence. Qed.

Lemma get_throw_all (v : js) (k k' : string) (x : js) :
  get v k = Normal x -> get v k' = Throw -> False.
Proof. destruct v; cbn; congruence. Qed.

(** Two literals tested against one value: at most one test succeeds. *)
Ltac excl_str :=
  match goal with
  | H1 : is_str ?v ?a = true, H2 : is_str ?v ?b = true |- _ =>
      pose proof (is_str_excl _ _ _ H1 H2); discriminate
  end.

Ltac link_get :=
  repeat match goal with
  | H : get ?v ?k = Normal ?x |- _ =>
      match goal with
      | H' : context [get_opt v k] |- _ =>
          rewrite (get_get_opt v k x H) in H'
      | |- context [get_opt v k] => rewrite (get_get_opt v k x H)
      end
  | H : get ?v ?k = Throw |- _ =>
      match goal with
      | H' : context [get_opt v k] |- _ =>
          rewrite (get_throw_opt v k H) in H'
      | |- context [get_opt v k] => rewrite (get_throw_opt v k H)
      end
  end.

(** A value whose property was read cannot throw on another read. *)
Ltac get_contra :=
  match goal with
  | H1 : get ?v _ = Normal _, H2 : get ?v _ = Throw |- _ =>
      exfalso; exact (get_throw_all _ _ _ _ H1 H2)
  end.

End JSFacts.
Import JSFacts.

(** ** The pending-audio queue of the binary revisions *)

Module QueueFacts.

Ltac open_queue s e :=
  destruct s as [tw el sid ready buf fp blobs sent_tw sent_el];
  destruct e; unfold_loop;
  unfold unit000, unit001, media_unit, media_payload, option_map;
  handler_cases.

Section Revisions.
Variable call : Call.
Local Abbreviation h1 := (Part000.handlers call).
Local Abbreviation h2 := (Part001.handlers call).

Lemma queued_step001 e s units :
  queued001 s units -> enabled e s = true ->
  queued001 (step h2 e s)
    (units ++ match unit001 e with Some f => [f] | None => [] end).
Proof.
  intros H He. open_queue s e.
  all: try discriminate; try excl_str.
  all: unfold queued001 in *; unfold_ops; intros Hr; try discriminate.
  all: destruct (H Hr) as [H1 H2]; subst.
  all: rewrite ?app_nil_r, ?map_app; split; try reflexivity; try congruence.
Qed.

Lemma queued_run001 evs :
  valid h2 evs init = true ->
  queued001 (run h2 evs init) (units_of unit001 evs).
Proof.
  induction evs as [|e evs IH] using rev_ind; intros Hv.
  - intros _. split; reflexivity.
  - rewrite RunFacts.valid_snoc in Hv. apply andb_prop in Hv as [Hv He].
    rewrite RunFacts.run_snoc, RunFacts.units_of_snoc.
    apply queued_step001; auto.
Qed.

Lemma delivers_pending001 :
  delivers_pending h2 unit001 (TextFrame (stringify (Part001.initMessage call))).
Proof.
  intros evs Hv Hopen.
  pose proof (queued_run001 evs Hv) as Hq.
  pose proof (RunFacts.idle_run h2 (StepFacts.idle_step2 call) evs init
                RunFacts.idle_init) as (_ & _ & Hidle).
  rewrite RunFacts.run_snoc.
  destruct (run h2 evs init) as [tw el sid ready buf fp blobs sent_tw sent_el].
  unfold_loop. unfold_ops.
  destruct el as [[| | |]|]; try discriminate.
  destruct (Hidle (or_intror eq_refl)) as [Hr Hs]. unfold_ops. subst.
  destruct (Hq eq_refl) as [_ Hbuf]. unfold_ops.
  rewrite drain_open. unfold_ops. now rewrite Hbuf.
Qed.

Lemma queued_step000 e s units :
  queued000 s units -> enabled e s = true ->
  queued000 (step h1 e s)
    (units ++ match unit000 e with Some f => [f] | None => [] end).
Proof.
  intros H He. open_queue s e.
  all: try discriminate; try excl_str.
  all: link_get.
  all: unfold queued000 in *; unfold_ops; intros Hr; try discriminate.
  all: destruct (H Hr) as [H1 H2]; subst.
  all: rewrite ?app_nil_r; split; try reflexivity; try congruence.
  all: try (apply Forall2_app; [assumption|]; repeat constructor;
            eexists; split; [eassumption | reflexivity]).
Qed.

Lemma queued_run000 evs :
  valid h1 evs init = true ->
  queued000 (run h1 evs init) (units_of unit000 evs).
Proof.
  induction evs as [|e evs IH] using rev_ind; intros Hv.
  - intros _. split; [reflexivity | constructor].
  - rewrite RunFacts.valid_snoc in Hv. apply andb_prop in Hv as [Hv He].
    rewrite RunFacts.run_snoc, RunFacts.units_of_snoc.
    apply queued_step000; auto.
Qed.

Lemma delivers_pending000 :
  delivers_pending h1 unit000 (TextFrame (stringify (Part000.sessionConfig call))).
Proof.
  intros evs Hv Hopen.
  pose proof (queued_run000 evs Hv) as Hq.
  pose proof (RunFacts.idle_run h1 (StepFacts.idle_step1 call) evs init
                RunFacts.idle_init) as (_ & _ & Hidle).
  rewrite RunFacts.run_snoc.
  destruct (run h1 evs init) as [tw el sid ready buf fp blobs sent_tw sent_el].
  unfold_loop. unfold_ops.
  destruct el as [[| | |]|]; try discriminate.
  destruct (Hidle (or_intror eq_refl)) as [Hr Hs]. unfold_ops. subst.
  destruct (Hq eq_refl) as [_ Hbuf]. unfold_ops.
  rewrite (flush_open buf (units_of unit000 evs)) by exact Hbuf.
  unfold_ops. reflexivity.
Qed.
End Revisions.

End QueueFacts.

Module ClaimFacts.

Section Revisions.
Variable decodeURIComponent : string -> completion string.
Variable call : Call.
Local Abbreviation h0 := (MediaBridge.handlers decodeURIComponent call).
Local Abbreviation h1 := (Part000.handlers call).
Local Abbreviation h2 := (Part001.handlers call).

Ltac open_state s :=
  destruct s as [tw el sid ready buf fp blobs sent_tw sent_el].

Lemma exchange_fails0 s :
  agent_idle s -> fetchPending s = true ->
  agent_failed (step h0 (FetchSettled ResponseNotOk) s).
Proof.
  intros H Hp. open_state s. unfold_loop. unfold_ops. subst.
  unfold agent_idle, agent_failed in *. unfold_ops.
  destruct tw; intuition (try congruence; try discriminate).
Qed.

Lemma exchange_fails1 s :
  agent_idle s -> fetchPending s = true ->
  agent_failed (step h1 (FetchSettled ResponseNotOk) s).
Proof.
  intros H Hp. open_state s. unfold_loop. unfold_ops. subst.
  unfold agent_idle, agent_failed in *. unfold_ops.
  destruct tw; intuition (try congruence; try discriminate).
Qed.

Lemma exchange_fails2 s :
  agent_idle s -> fetchPending s = true ->
  agent_failed (step h2 (FetchSettled ResponseNotOk) s).
Proof.
  intros H Hp. open_state s. unfold_loop. unfold_ops. subst.
  unfold agent_idle, agent_failed in *. unfold_ops.
  destruct tw; intuition (try congruence; try discriminate).
Qed.

(** An event that is no [start] leaves the session identifier alone; a
    delivered [start] sets it. *)
Lemma sid_kept0 e s : start_sid e = None -> streamSid (step h0 e s) = streamSid s.
Proof.
  intros H. destruct (StepFacts.sid_change0 decodeURIComponent call e s) as [E | E];
    congruence.
Qed.

Lemma sid_kept1 e s : start_sid e = None -> streamSid (step h1 e s) = streamSid s.
Proof.
  intros H. destruct (StepFacts.sid_change1 call e s) as [E | E]; congruence.
Qed.

Lemma sid_kept2 e s : start_sid e = None -> streamSid (step h2 e s) = streamSid s.
Proof.
  intros H. destruct (StepFacts.sid_change2 call e s) as [E | E]; congruence.
Qed.

Lemma sid_set0 e s v :
  start_sid e = Some v -> enabled e s = true -> streamSid (step h0 e s) = v.
Proof.
  intros H He. revert H. StepFacts.open_step s e; intros H; try discriminate; congruence.
Qed.

Lemma sid_set1 e s v :
  start_sid e = Some v -> enabled e s = true -> streamSid (step h1 e s) = v.
Proof.
  intros H He. revert H. StepFacts.open_step s e; intros H; try discriminate; congruence.
Qed.

Lemma sid_set2 e s v :
  start_sid e = Some v -> enabled e s = true -> streamSid (step h2 e s) = v.
Proof.
  intros H He. revert H. StepFacts.open_step s e; intros H; try discriminate; congruence.
Qed.

(** The binary revisions only log a JSON event of the agent. *)
Lemma json_event_logged1 message s : step h1 (agent_event message) s = s.
Proof. open_state s. unfold agent_event. unfold_loop. handler_cases; reflexivity. Qed.

Lemma json_event_logged2 message s : step h2 (agent_event message) s = s.
Proof. open_state s. unfold agent_event. unfold_loop. handler_cases; reflexivity. Qed.

Ltac open_agent_event s :=
  open_state s; unfold agent_event, has_type, ping_event_id in *;
  unfold_loop; unfold MediaBridge.audioPayload; handler_cases.

Lemma ping_answered message s :
  elevenlabsSocket s = Some OPEN ->
  has_type message "ping" = true ->
  truthy (ping_event_id message) = true ->
  step h0 (agent_event message) s
  = set_toEleven (toEleven s ++ [pong_frame (ping_event_id message)]) s.
Proof.
  intros Hopen Htype Hid. revert Hopen Htype Hid. open_agent_event s.
  all: intros Hopen Htype Hid; try discriminate; try excl_str.
  all: try get_contra; link_get; try discriminate; try reflexivity.
  all: congruence.
Qed.

Lemma ping_ignored message s :
  has_type message "ping" = true ->
  truthy (ping_event_id message) = false ->
  step h0 (agent_event message) s = s.
Proof.
  intros Htype Hid. revert Htype Hid. open_agent_event s.
  all: intros Htype Hid; try discriminate; try excl_str.
  all: try get_contra; link_get; try discriminate; try reflexivity.
  all: congruence.
Qed.

Lemma audio_ignored message s :
  has_type message "audio" = true ->
  get_opt (get_opt message "audio") "chunk" = JUndefined ->
  get_opt (get_opt message "audio_event") "audio_base_64" = JUndefined ->
  step h0 (agent_event message) s = s.
Proof.
  intros Htype H1 H2. revert Htype H1 H2. open_agent_event s.
  all: intros Htype H1 H2; try discriminate; try excl_str.
  all: try get_contra; link_get; try discriminate; try reflexivity.
  all: repeat match goal with
              | H : Normal _ = Normal _ |- _ => inversion H; clear H; subst
              end.
  all: try congruence.
  all: try (rewrite H1 in *; discriminate).
  all: try (rewrite H2 in *; discriminate).
Qed.

Lemma interruption_clears message s :
  elevenlabsSocket s = Some OPEN ->
  has_type message "interruption" = true ->
  streaming s ->
  step h0 (agent_event message) s
  = set_toTwilio (toTwilio s ++ [clear_frame (streamSid s)]) s.
Proof.
  intros Hopen Htype [Hsid Htw]. revert Hopen Htype Hsid Htw.
  open_agent_event s.
  all: intros Hopen Htype Hsid Htw; try discriminate; try excl_str.
  all: try reflexivity; congruence.
Qed.

Lemma interruption_suppressed message s :
  has_type message "interruption" = true ->
  truthy (streamSid s) = false \/ twilioSocket s <> OPEN ->
  step h0 (agent_event message) s = s.
Proof.
  intros Htype Hno. revert Htype Hno. open_agent_event s.
  all: intros Htype [Hno | Hno]; try discriminate; try excl_str.
  all: try reflexivity; congruence.
Qed.

(** The mirror cascade: once the agent connection has closed, the caller
    connection is not open. *)
Lemma caller_closed_with_agent0 s :
  is_open (twilioSocket (step h0 ElevenClose s)) = true ->
  enabled ElevenClose s = false.
Proof. open_state s. unfold_loop. handler_cases; congruence. Qed.

Lemma caller_closed_with_agent1 s :
  is_open (twilioSocket (step h1 ElevenClose s)) = true ->
  enabled ElevenClose s = false.
Proof. open_state s. unfold_loop. handler_cases; congruence. Qed.

Lemma caller_closed_with_agent2 s :
  is_open (twilioSocket (step h2 ElevenClose s)) = true ->
  enabled ElevenClose s = false.
Proof. open_state s. unfold_loop. handler_cases; congruence. Qed.

Lemma absorbed_of_step {B} (h : Handlers B) e (s : State B) :
  step h e s = s -> absorbed h e s.
Proof.
  intros E. split; [exact E|]. intros post. cbn [run fold_left].
  now rewrite E.
Qed.
End Revisions.

Lemma clear_frame_content (sid : js) :
  truthy sid = true ->
  clear_frame sid
  = TextFrame (JObj [("event", JStr "clear"); ("streamSid", stringify sid)]).
Proof. destruct sid; intros H; try discriminate; reflexivity. Qed.

End ClaimFacts.

(** * The claims of the specification *)

(** ** C1: audio that arrives before the agent leg is ready *)




(** ** C2: the close cascade *)

(** C2: a caller that hangs up before the agent connection is open leaves
    the agent connection open.  While the credential exchange is pending no
    revision has a socket to close, and the agent socket is created after
    the caller has gone; while the agent socket is connecting,
    media-bridge.ts and part_001 close it only if it is already open.  Each
    run below is deliverable and ends with the caller closed and the agent
    leg open. *)
Theorem agent_leg_left_open :
  let left_open {B} (h : Handlers B) (evs : list Event) :=
    valid h evs init = true /\
    twilioSocket (run h evs init) = CLOSED /\
    elevenlabsSocket (run h evs init) = Some OPEN in
  left_open (MediaBridge.handlers plain_decode acme) hangup_during_exchange /\
  left_open (Part000.handlers acme) hangup_during_exchange /\
  left_open (Part001.handlers acme) hangup_during_exchange /\
  left_open (MediaBridge.handlers plain_decode acme) hangup_during_connect /\
  left_open (Part001.handlers acme) hangup_during_connect /\
  ~ close_cascades (MediaBridge.handlers plain_decode acme).
Proof.
  cbv zeta. repeat split; try reflexivity.
  intros H. destruct (H hangup_during_exchange eq_refl) as [H1 _].
  apply H1; reflexivity.
Qed.

(** ** C3: a failed credential exchange *)

(** C3: in every revision, once the credential exchange settles with a
    non-success response, the caller connection is closing or closed, the
    agent connection is never created, the bridge never becomes ready and
    nothing is ever sent to the agent, whatever events follow. *)
Theorem failed_exchange_ends_call
    (decodeURIComponent : string -> completion string) (call : Call) :
  failed_exchange_closes (MediaBridge.handlers decodeURIComponent call) /\
  failed_exchange_closes (Part000.handlers call) /\
  failed_exchange_closes (Part001.handlers call).
Proof.
  split; [|split].
  - exact (RunFacts.failed_exchange_closes_holds _
             (StepFacts.idle_step0 decodeURIComponent call)
             (StepFacts.failed_step0 decodeURIComponent call)
             (ClaimFacts.exchange_fails0 decodeURIComponent call)).
  - exact (RunFacts.failed_exchange_closes_holds _
             (StepFacts.idle_step1 call) (StepFacts.failed_step1 call)
             (ClaimFacts.exchange_fails1 call)).
  - exact (RunFacts.failed_exchange_closes_holds _
             (StepFacts.idle_step2 call) (StepFacts.failed_step2 call)
             (ClaimFacts.exchange_fails2 call)).
Qed.

Lemma failed_exchange_ends_call_witness :
  let s := run (MediaBridge.handlers plain_decode acme)
             ([TwilioOpen; media_event (JStr "AAAA")]
              ++ FetchSettled ResponseNotOk
              :: [media_event (JStr "AQID"); TwilioClose]) init in
  (twilioSocket s = CLOSING \/ twilioSocket s = CLOSED) /\
  elevenlabsSocket s = None /\ elevenlabsReady s = false /\ toEleven s = [].
Proof.
  exact (proj1 (failed_exchange_ends_call plain_decode acme)
           [TwilioOpen; media_event (JStr "AAAA")]
           [media_event (JStr "AQID"); TwilioClose] eq_refl).
Defined.

(** ** C4: the session identifier on frames to the caller *)



(** ** C5: the session identifier over the life of a call *)

(** C5, as stated, fails: every [start] event assigns [streamSid]
    unconditionally, so a second [start] replaces the identifier the first
    one recorded. *)
Lemma second_start_overwrites_sid :
  ~ sid_never_overwritten (MediaBridge.handlers plain_decode acme).
Proof.
  intros H.
  specialize (H [TwilioOpen; start_event (JStr "SID1")]
                (start_event (JStr "SID2")) eq_refl).
  vm_compute in H. discriminate H.
Qed.

(** C5 (amended): in every revision the session identifier is changed by
    caller [start] events only: an event that is not a readable [start]
    leaves it as it is, and every delivered [start] event sets it to that
    event's [streamSid], replacing an identifier recorded earlier. *)
Theorem sid_changed_by_start_only
    (decodeURIComponent : string -> completion string) (call : Call) :
  sid_follows_start (MediaBridge.handlers decodeURIComponent call) /\
  sid_follows_start (Part000.handlers call) /\
  sid_follows_start (Part001.handlers call).
Proof.
  split; [|split]; intros e s; split.
  - apply ClaimFacts.sid_kept0.
  - intros sid. apply ClaimFacts.sid_set0.
  - apply ClaimFacts.sid_kept1.
  - intros sid. apply ClaimFacts.sid_set1.
  - apply ClaimFacts.sid_kept2.
  - intros sid. apply ClaimFacts.sid_set2.
Qed.

Lemma sid_changed_by_start_only_witness :
  let h := MediaBridge.handlers plain_decode acme in
  let s := run h [TwilioOpen; start_event (JStr "SID1")] init in
  streamSid (step h (media_event (JStr "AAAA")) s) = JStr "SID1" /\
  streamSid (step h (start_event (JStr "SID2")) s) = JStr "SID2".
Proof.
  split.
  - exact (proj1 (proj1 (sid_changed_by_start_only plain_decode acme)
                    (media_event (JStr "AAAA"))
                    (run (MediaBridge.handlers plain_decode acme)
                       [TwilioOpen; start_event (JStr "SID1")] init))
             eq_refl).
  - exact (proj2 (proj1 (sid_changed_by_start_only plain_decode acme)
                    (start_event (JStr "SID2"))
                    (run (MediaBridge.handlers plain_decode acme)
                       [TwilioOpen; start_event (JStr "SID1")] init))
             (JStr "SID2") eq_refl eq_refl).
Defined.

(** ** C6: keep-alive pings *)


(** In src/media-bridge.ts a ping whose identifier is the number 0 is not
    answered either: the guard tests the identifier for truthiness. *)
Lemma zero_ping_gets_no_pong :
  let h := MediaBridge.handlers plain_decode acme in
  let s := run h connect init in
  step h (agent_event (ping_message (JNum 0))) s = s.
Proof. reflexivity. Qed.



(** ** C7: interruptions *)




(** ** C8: the codec *)


(** ** C9: a ping without an identifier *)

(** C9: in src/media-bridge.ts a [ping] event without an event identifier
    ([ping_event.event_id] missing, or the empty string) is absorbed: no
    pong is sent, no connection is closed, the state is unchanged and the
    events that follow are processed as usual. *)
Theorem ping_without_id_absorbed
    (decodeURIComponent : string -> completion string) (call : Call)
    (message : js) (s : State Empty_set) :
  has_type message "ping" = true ->
  ping_event_id message = JUndefined \/ ping_event_id message = JStr "" ->
  absorbed (MediaBridge.handlers decodeURIComponent call) (agent_event message) s.
Proof.
  intros Htype Hid. apply ClaimFacts.absorbed_of_step.
  apply ClaimFacts.ping_ignored; [exact Htype|].
  destruct Hid as [-> | ->]; reflexivity.
Qed.

Lemma ping_without_id_absorbed_witness :
  absorbed (MediaBridge.handlers plain_decode acme)
    (agent_event (JObj [("type", JStr "ping"); ("ping_event", JObj [])]))
    (run (MediaBridge.handlers plain_decode acme) connect init).
Proof.
  exact (ping_without_id_absorbed plain_decode acme
           (JObj [("type", JStr "ping"); ("ping_event", JObj [])])
           (run (MediaBridge.handlers plain_decode acme) connect init)
           eq_refl (or_introl eq_refl)).
Defined.

(** ** C10: an audio event without a payload *)

(** C10: in src/media-bridge.ts an [audio] event that carries neither
    [audio.chunk] nor [audio_event.audio_base_64] is absorbed: no media
    frame is sent to the caller, no connection is closed, the state is
    unchanged and the events that follow are processed as usual. *)
Theorem audio_without_payload_absorbed
    (decodeURIComponent : string -> completion string) (call : Call)
    (message : js) (s : State Empty_set) :
  has_type message "audio" = true ->
  get_opt (get_opt message "audio") "chunk" = JUndefined ->
  get_opt (get_opt message "audio_event") "audio_base_64" = JUndefined ->
  absorbed (MediaBridge.handlers decodeURIComponent call) (agent_event message) s.
Proof.
  intros Htype H1 H2. apply ClaimFacts.absorbed_of_step.
  now apply ClaimFacts.audio_ignored.
Qed.

Lemma audio_without_payload_absorbed_witness :
  absorbed (MediaBridge.handlers plain_decode acme)
    (agent_event (JObj [("type", JStr "audio"); ("audio", JObj [])]))
    (run (MediaBridge.handlers plain_decode acme)
       (connect ++ [start_event (JStr "SID1")]) init).
Proof.
  exact (audio_without_payload_absorbed plain_decode acme
           (JObj [("type", JStr "audio"); ("audio", JObj [])])
           (run (MediaBridge.handlers plain_decode acme)
              (connect ++ [start_event (JStr "SID1")]) init)
           eq_refl eq_refl eq_refl).
Defined.

(** * Further properties of the code *)

Module MoreFacts.

Ltac open_state s :=
  destruct s as [tw el sid ready buf fp blobs sent_tw sent_el].

Section Revisions.
Variable decodeURIComponent : string -> completion string.
Variable call : Call.
Local Abbreviation h0 := (MediaBridge.handlers decodeURIComponent call).
Local Abbreviation h1 := (Part000.handlers call).
Local Abbreviation h2 := (Part001.handlers call).

Lemma ready_step0 e s :
  elevenlabsReady s = true -> elevenlabsReady (step h0 e s) = true.
Proof. intros H. StepFacts.open_step s e; unfold_ops; congruence. Qed.

Lemma ready_step1 e s :
  elevenlabsReady s = true -> elevenlabsReady (step h1 e s) = true.
Proof. intros H. StepFacts.open_step s e; unfold_ops; congruence. Qed.

Lemma ready_step2 e s :
  elevenlabsReady s = true -> elevenlabsReady (step h2 e s) = true.
Proof. intros H. StepFacts.open_step s e; unfold_ops; congruence. Qed.

Lemma ready_run {B} (h : Handlers B) :
  (forall e s, elevenlabsReady s = true -> elevenlabsReady (step h e s) = true) ->
  ready_is_kept h.
Proof.
  intros Hstep evs. induction evs as [|e evs IH]; intros s Hs; [exact Hs|].
  apply IH, Hstep, Hs.
Qed.

Ltac close_sends :=
  split; first [ left; reflexivity | right; reflexivity | left; congruence ].

Lemma sends_open0 : sends_on_open_only h0.
Proof. intros e s. StepFacts.open_step s e; close_sends. Qed.

Lemma sends_open1 : sends_on_open_only h1.
Proof. intros e s. StepFacts.open_step s e; close_sends. Qed.

Lemma sends_open2 : sends_on_open_only h2.
Proof. intros e s. StepFacts.open_step s e; close_sends. Qed.

Lemma inbound0 : caller_message_stays_inbound h0.
Proof.
  intros d s. open_state s. unfold_loop. handler_cases; split; reflexivity.
Qed.

Lemma inbound1 : caller_message_stays_inbound h1.
Proof.
  intros d s. open_state s. unfold_loop. handler_cases; split; reflexivity.
Qed.

Lemma inbound2 : caller_message_stays_inbound h2.
Proof.
  intros d s. open_state s. unfold_loop. handler_cases; split; reflexivity.
Qed.

Ltac close_cascade :=
  intros He; try discriminate;
  repeat split; try reflexivity; try discriminate; try congruence.

Lemma agent_close0 : agent_close_cascades h0.
Proof.
  intros s. cbv zeta. open_state s. unfold_loop. handler_cases; close_cascade.
Qed.

Lemma agent_close1 : agent_close_cascades h1.
Proof.
  intros s. cbv zeta. open_state s. unfold_loop. handler_cases; close_cascade.
Qed.

Lemma agent_close2 : agent_close_cascades h2.
Proof.
  intros s. cbv zeta. open_state s. unfold_loop. handler_cases; close_cascade.
Qed.

Ltac close_agent :=
  intros He; try discriminate;
  repeat split; try reflexivity; try discriminate; try congruence;
  try (intros _; first [ left; reflexivity | right; reflexivity ]);
  try (intros Hno; exfalso; apply Hno; reflexivity).

Lemma stop_closes0 e :
  is_stop e = true \/ e = TwilioClose -> closes_open_agent h0 e.
Proof.
  intros Hstop s. revert Hstop. unfold is_stop.
  StepFacts.open_step s e; intros [Hstop | Hstop]; try discriminate;
    try excl_str; close_agent.
Qed.

Lemma stop_closes1 e :
  is_stop e = true \/ e = TwilioClose -> closes_open_agent h1 e.
Proof.
  intros Hstop s. revert Hstop. unfold is_stop.
  StepFacts.open_step s e; intros [Hstop | Hstop]; try discriminate;
    try excl_str; close_agent.
Qed.

Lemma stop_closes2 e :
  is_stop e = true \/ e = TwilioClose -> closes_open_agent h2 e.
Proof.
  intros Hstop s. revert Hstop. unfold is_stop.
  StepFacts.open_step s e; intros [Hstop | Hstop]; try discriminate;
    try excl_str; close_agent.
Qed.
End Revisions.

End MoreFacts.

Module LifeFacts.

Ltac open_state s :=
  destruct s as [tw el sid ready buf fp blobs sent_tw sent_el].

Ltac use_idle H :=
  unfold agent_idle in H; unfold_ops;
  destruct H as (Hidle1 & Hidle2 & Hidle3);
  try (specialize (Hidle2 eq_refl); subst).

Section Revisions.
Variable decodeURIComponent : string -> completion string.
Variable call : Call.
Local Abbreviation h0 := (MediaBridge.handlers decodeURIComponent call).
Local Abbreviation h1 := (Part000.handlers call).
Local Abbreviation h2 := (Part001.handlers call).

Ltac close_advance H :=
  use_idle H; cbn [socket_rank agent_rank]; split; lia.

Lemma advance_step0 e s :
  agent_idle s ->
  socket_rank (twilioSocket s) <= socket_rank (twilioSocket (step h0 e s)) /\
  agent_rank (elevenlabsSocket s) <= agent_rank (elevenlabsSocket (step h0 e s)).
Proof. intros H. StepFacts.open_step s e; close_advance H. Qed.

Lemma advance_step1 e s :
  agent_idle s ->
  socket_rank (twilioSocket s) <= socket_rank (twilioSocket (step h1 e s)) /\
  agent_rank (elevenlabsSocket s) <= agent_rank (elevenlabsSocket (step h1 e s)).
Proof. intros H. StepFacts.open_step s e; close_advance H. Qed.

Lemma advance_step2 e s :
  agent_idle s ->
  socket_rank (twilioSocket s) <= socket_rank (twilioSocket (step h2 e s)) /\
  agent_rank (elevenlabsSocket s) <= agent_rank (elevenlabsSocket (step h2 e s)).
Proof. intros H. StepFacts.open_step s e; close_advance H. Qed.

Ltac close_failed_exchange H :=
  use_idle H; unfold agent_failed; unfold_ops;
  intuition (try congruence; try discriminate).

Lemma any_exchange_fails0 r s :
  exchange_failed r = true -> agent_idle s -> fetchPending s = true ->
  agent_failed (step h0 (FetchSettled r) s).
Proof.
  intros Hr H Hp. open_state s. unfold_loop. unfold_ops. subst.
  destruct r as [[|]| |]; try discriminate; destruct tw;
    close_failed_exchange H.
Qed.

Lemma any_exchange_fails1 r s :
  exchange_failed r = true -> agent_idle s -> fetchPending s = true ->
  agent_failed (step h1 (FetchSettled r) s).
Proof.
  intros Hr H Hp. open_state s. unfold_loop. unfold_ops. subst.
  destruct r as [[|]| |]; try discriminate; destruct tw;
    close_failed_exchange H.
Qed.

Lemma any_exchange_fails2 r s :
  exchange_failed r = true -> agent_idle s -> fetchPending s = true ->
  agent_failed (step h2 (FetchSettled r) s).
Proof.
  intros Hr H Hp. open_state s. unfold_loop. unfold_ops. subst.
  destruct r as [[|]| |]; try discriminate; destruct tw;
    close_failed_exchange H.
Qed.
End Revisions.

Section Generic.
Context {B : Type} (h : Handlers B).

Hypothesis idle_step : forall e s, agent_idle s -> agent_idle (step h e s).
Hypothesis failed_step : forall e s, agent_failed s -> agent_failed (step h e s).

Lemma sockets_advance_holds :
  (forall e s, agent_idle s ->
     socket_rank (twilioSocket s) <= socket_rank (twilioSocket (step h e s)) /\
     agent_rank (elevenlabsSocket s) <= agent_rank (elevenlabsSocket (step h e s))) ->
  sockets_advance h.
Proof.
  intros Hstep evs e. cbv zeta. apply Hstep.
  apply (RunFacts.idle_run h idle_step), RunFacts.idle_init.
Qed.

Lemma any_failed_exchange_closes_holds :
  (forall r s, exchange_failed r = true -> agent_idle s -> fetchPending s = true ->
     agent_failed (step h (FetchSettled r) s)) ->
  any_failed_exchange_closes h.
Proof.
  intros Hfail r pre post Hr Hpending s. subst s.
  rewrite RunFacts.run_app. cbn [run fold_left]. fold (run h post).
  pose proof (RunFacts.idle_run h idle_step pre init RunFacts.idle_init) as Hidle.
  pose proof (RunFacts.failed_run h failed_step post _
                (Hfail r _ Hr Hidle Hpending)) as HF.
  destruct HF as (_ & Hel & Hready & Hsent & Htw). auto.
Qed.
End Generic.

End LifeFacts.

Module InitFacts.

Ltac open_state s :=
  destruct s as [tw el sid ready buf fp blobs sent_tw sent_el].

(** The queue loops send binary frames only. *)
Lemma drain_binary (l : list (list byte)) (s : State (list byte)) :
  exists c buf chunks,
    Part001.drain l s
    = (c, mkState (twilioSocket s) (elevenlabsSocket s) (streamSid s)
            (elevenlabsReady s) buf (fetchPending s) (blobReads s)
            (toTwilio s) (toEleven s ++ map BinaryFrame chunks)).
Proof.
  revert s.
  induction l as [|x l IH]; intros [tw el sid ready buf fp blobs tt te];
    cbn [Part001.drain]; unfold_ops.
  - exists (Normal Datatypes.tt), buf, []. cbn [map]. now rewrite app_nil_r.
  - destruct el as [[| | |]|];
      try (exists Throw, l, []; cbn [map]; now rewrite app_nil_r).
    destruct (IH (mkState tw (Some OPEN) sid ready l fp blobs tt
                    (te ++ [BinaryFrame x]))) as (c & buf' & chunks & E).
    unfold_ops. rewrite E. exists c, buf', (x :: chunks).
    cbn [map]. now rewrite <- app_assoc.
Qed.

Lemma flush_binary (l : list js) (s : State js) :
  exists c chunks,
    Part000.flush l s
    = (c, mkState (twilioSocket s) (elevenlabsSocket s) (streamSid s)
            (elevenlabsReady s) (audioBuffer s) (fetchPending s) (blobReads s)
            (toTwilio s) (toEleven s ++ map BinaryFrame chunks)).
Proof.
  revert s.
  induction l as [|x l IH]; intros [tw el sid ready buf fp blobs tt te];
    cbn [Part000.flush]; unfold_ops.
  - exists (Normal Datatypes.tt), []. cbn [map]. now rewrite app_nil_r.
  - destruct (decode_payload x) as [bytes|];
      [|exists Throw, []; cbn [map]; now rewrite app_nil_r].
    destruct el as [[| | |]|];
      try (exists Throw, []; cbn [map]; now rewrite app_nil_r).
    destruct (IH (mkState tw (Some OPEN) sid ready buf fp blobs tt
                    (te ++ [BinaryFrame bytes]))) as (c & chunks & E).
    unfold_ops. rewrite E. exists c, (bytes :: chunks).
    cbn [map]. now rewrite <- app_assoc.
Qed.

Ltac loop_binary :=
  match goal with
  | |- context [Part001.drain ?l ?s] =>
      let c := fresh "c" in let buf := fresh "buf" in
      let chunks := fresh "chunks" in let E := fresh "E" in
      destruct (drain_binary l s) as (c & buf & chunks & E);
      unfold_ops; rewrite E; clear E
  | |- context [Part000.flush ?l ?s] =>
      let c := fresh "c" in let chunks := fresh "chunks" in let E := fresh "E" in
      destruct (flush_binary l s) as (c & chunks & E);
      unfold_ops; rewrite E; clear E
  end.

Ltac binary_cases := repeat (unfold_ops; first [loop_binary | break_match]).

Lemma binary_frames (chunks : list (list byte)) :
  Forall is_binary (map BinaryFrame chunks).
Proof.
  induction chunks as [|x chunks IH]; cbn [map]; constructor; auto.
  now exists x.
Qed.

Ltac split_initialised H :=
  unfold initialised in H; unfold_ops;
  destruct H as [[Hr Ht] | (Hr & Hn & Hc & rest & Ht & Hrest)]; subst.

Ltac keep_initialised :=
  unfold initialised; unfold_ops;
  first
    [ left; split; reflexivity
    | right; split; [reflexivity|]; split; [discriminate || assumption|];
      split; [discriminate || assumption|];
      first
        [ eexists; split; [reflexivity | assumption]
        | eexists; split; [reflexivity|];
          repeat (apply Forall_app; split); try assumption;
          try apply binary_frames;
          repeat constructor; eexists; reflexivity ] ].

Section Revisions.
Variable decodeURIComponent : string -> completion string.
Variable call : Call.
Local Abbreviation h0 := (MediaBridge.handlers decodeURIComponent call).
Local Abbreviation h1 := (Part000.handlers call).
Local Abbreviation h2 := (Part001.handlers call).

Lemma initialised_step2 e s :
  agent_idle s ->
  initialised (TextFrame (stringify (Part001.initMessage call))) is_binary s ->
  initialised (TextFrame (stringify (Part001.initMessage call))) is_binary
    (step h2 e s).
Proof.
  intros Hidle H. open_state s. split_initialised H.
  all: LifeFacts.use_idle Hidle.
  all: destruct e; unfold_loop; binary_cases.
  all: try congruence; try (exfalso; intuition congruence).
  all: rewrite <- ?app_assoc; cbn [app].
  all: keep_initialised.
Qed.
Lemma initialised_step1 e s :
  agent_idle s ->
  initialised (TextFrame (stringify (Part000.sessionConfig call))) is_binary s ->
  initialised (TextFrame (stringify (Part000.sessionConfig call))) is_binary
    (step h1 e s).
Proof.
  intros Hidle H. open_state s. split_initialised H.
  all: LifeFacts.use_idle Hidle.
  all: destruct e; unfold_loop; binary_cases.
  all: try congruence; try (exfalso; intuition congruence).
  all: rewrite <- ?app_assoc; cbn [app].
  all: keep_initialised.
Qed.

Ltac keep_json :=
  split;
  [ unfold initialised; unfold_ops;
    first
      [ left; split; reflexivity
      | right; split; [reflexivity|]; split; [discriminate || assumption|];
        split; [discriminate || assumption|];
        first
          [ eexists; split; [reflexivity | assumption]
          | eexists; split; [reflexivity | apply Forall_nil]
          | eexists; split; [reflexivity|];
            apply Forall_app; split; [assumption|];
            apply Forall_cons; [|apply Forall_nil];
            first [ left; eexists; reflexivity | right; eexists; reflexivity ] ] ]
  | unfold_ops; intros; try discriminate; try reflexivity; auto ].

Lemma initialised_step0 name e s :
  decodeURIComponent (businessName call) = Normal name ->
  agent_idle s ->
  initialised (TextFrame (stringify (MediaBridge.initMessage call name)))
    json_frame s /\
  (elevenlabsSocket s = Some OPEN -> elevenlabsReady s = true) ->
  initialised (TextFrame (stringify (MediaBridge.initMessage call name)))
    json_frame (step h0 e s) /\
  (elevenlabsSocket (step h0 e s) = Some OPEN ->
   elevenlabsReady (step h0 e s) = true).
Proof.
  intros Hname Hidle [H Hnot]. open_state s. split_initialised H.
  all: LifeFacts.use_idle Hidle.
  all: unfold_ops.
  all: destruct e; unfold_loop; rewrite ?Hname; binary_cases.
  all: try congruence; try (exfalso; intuition congruence).
  all: rewrite <- ?app_assoc; cbn [app].
  all: keep_json.
Qed.
End Revisions.

Section Generic.
Context {B : Type} (h : Handlers B).
Hypothesis idle_step : forall e s, agent_idle s -> agent_idle (step h e s).

Lemma init_comes_first_holds (init_frame : Frame) (later : Frame -> Prop)
    (extra : State B -> Prop) :
  extra init ->
  (forall e s, agent_idle s ->
     initialised init_frame later s /\ extra s ->
     initialised init_frame later (step h e s) /\ extra (step h e s)) ->
  init_comes_first h init_frame later.
Proof.
  intros Hextra Hstep evs. cbv zeta.
  assert (H : initialised init_frame later (run h evs init) /\
              extra (run h evs init)).
  { induction evs as [|e evs IH] using rev_ind.
    - split; [|exact Hextra]. left. split; reflexivity.
    - rewrite RunFacts.run_snoc. apply Hstep; [|exact IH].
      apply (RunFacts.idle_run h idle_step), RunFacts.idle_init. }
  destruct H as [[H | (Hr & _ & _ & rest & Ht & Hrest)] _].
  - left. exact H.
  - right. split; [exact Hr|]. exists rest. auto.
Qed.
End Generic.
End InitFacts.

Module DrainFacts.

Ltac open_state s :=
  destruct s as [tw el sid ready buf fp blobs sent_tw sent_el].

Lemma decodable_frames (l : list js) :
  Forall decodable l -> exists frames, Forall2 decodes_to l frames.
Proof.
  induction 1 as [|x l (bytes & Hx) _ (frames & IH)].
  - exists []. constructor.
  - exists (BinaryFrame bytes :: frames). constructor; [|exact IH].
    exists bytes. auto.
Qed.

Section Revisions.
Variable call : Call.
Local Abbreviation h1 := (Part000.handlers call).
Local Abbreviation h2 := (Part001.handlers call).

Ltac keep_drained :=
  unfold_ops; intros Hopen; try discriminate;
  first [ split; reflexivity | auto ].

Lemma drained_step2 e s :
  (elevenlabsSocket s = Some OPEN ->
   elevenlabsReady s = true /\ audioBuffer s = []) ->
  elevenlabsSocket (step h2 e s) = Some OPEN ->
  elevenlabsReady (step h2 e s) = true /\ audioBuffer (step h2 e s) = [].
Proof.
  intros H. open_state s. unfold_ops.
  destruct e; unfold_loop; unfold_ops; rewrite ?drain_open; handler_cases.
  all: keep_drained.
  all: destruct (H ltac:(first [reflexivity | assumption])); subst;
    try discriminate; split; reflexivity.
Qed.

Lemma drained_step1 e s :
  (elevenlabsSocket s = Some OPEN ->
   elevenlabsReady s = true /\ audioBuffer s = []) /\
  Forall decodable (audioBuffer s) ->
  (elevenlabsSocket (step h1 e s) = Some OPEN ->
   elevenlabsReady (step h1 e s) = true /\ audioBuffer (step h1 e s) = []) /\
  Forall decodable (audioBuffer (step h1 e s)).
Proof.
  intros [H Hdec]. open_state s. unfold_ops.
  destruct (decodable_frames buf Hdec) as (frames & Hframes).
  destruct e; unfold_loop; unfold_ops;
    rewrite ?(flush_open buf frames) by exact Hframes; handler_cases.
  all: split; [keep_drained | unfold_ops; try assumption; try constructor].
  all: try (destruct (H ltac:(first [reflexivity | assumption])); subst;
            try discriminate; split; reflexivity).
  all: try (apply Forall_app; split; [assumption|]; repeat constructor;
            link_get; eexists; eassumption).
Qed.

Lemma nothing_waits2 : nothing_waits_while_open h2.
Proof.
  intros evs. cbv zeta.
  induction evs as [|e evs IH] using rev_ind; [discriminate|].
  rewrite RunFacts.run_snoc. apply drained_step2, IH.
Qed.

Lemma nothing_waits1 : nothing_waits_while_open h1.
Proof.
  intros evs. cbv zeta.
  assert (H : (elevenlabsSocket (run h1 evs init) = Some OPEN ->
               elevenlabsReady (run h1 evs init) = true /\
               audioBuffer (run h1 evs init) = []) /\
              Forall decodable (audioBuffer (run h1 evs init))).
  { induction evs as [|e evs IH] using rev_ind.
    - split; [discriminate | constructor].
    - rewrite RunFacts.run_snoc. apply drained_step1, IH. }
  apply H.
Qed.
End Revisions.

(** A business name that cannot be decoded: the agent leg opens but the
    bridge never initialises the session. *)
Section Undecodable.
Variable decodeURIComponent : string -> completion string.
Variable call : Call.
Hypothesis bad_name : decodeURIComponent (businessName call) = Throw.
Local Abbreviation h0 := (MediaBridge.handlers decodeURIComponent call).

Lemma never_ready_step e s :
  elevenlabsReady s = false /\ Forall is_pong (toEleven s) ->
  elevenlabsReady (step h0 e s) = false /\ Forall is_pong (toEleven (step h0 e s)).
Proof.
  intros [Hr Hp]. open_state s. unfold_ops. subst.
  destruct e; unfold_loop; rewrite ?bad_name; handler_cases.
  all: split; try reflexivity; try assumption; try discriminate.
  all: apply Forall_app; split; [assumption|]; repeat constructor;
       eexists; reflexivity.
Qed.

Lemma never_ready_run evs :
  elevenlabsReady (run h0 evs init) = false /\
  Forall is_pong (toEleven (run h0 evs init)).
Proof.
  induction evs as [|e evs IH] using rev_ind.
  - split; [reflexivity | constructor].
  - rewrite RunFacts.run_snoc. apply never_ready_step, IH.
Qed.
End Undecodable.

End DrainFacts.

Module AudioFacts.

Ltac open_state s :=
  destruct s as [tw el sid ready buf fp blobs sent_tw sent_el].

Ltac open_caller e s :=
  open_state s; destruct e; unfold_loop;
  unfold unit000, unit001, media_unit, media_payload, start_sid, is_stop,
    option_map, chunk_frame;
  handler_cases.

Lemma pending_read {A} (l : list A) (x : A) :
  nth_error (l ++ [x]) (List.length l) = Some x /\
  remove_nth (List.length l) (l ++ [x]) = l.
Proof.
  induction l as [|y l [IH1 IH2]]; cbn; [auto|].
  split; [exact IH1 | now rewrite IH2].
Qed.

Lemma pending_ltb {A} (l : list A) (x : A) :
  (List.length l <? List.length (l ++ [x]))%nat = true.
Proof. apply Nat.ltb_lt. rewrite length_app. cbn. lia. Qed.

Section Revisions.
Variable decodeURIComponent : string -> completion string.
Variable call : Call.
Local Abbreviation h0 := (MediaBridge.handlers decodeURIComponent call).
Local Abbreviation h1 := (Part000.handlers call).
Local Abbreviation h2 := (Part001.handlers call).

(** Live audio, once the agent leg is ready and open. *)
Lemma live_audio0 e s payload :
  media_payload e = Some payload ->
  elevenlabsReady s = true -> elevenlabsSocket s = Some OPEN ->
  enabled e s = true ->
  step h0 e s = set_toEleven (toEleven s ++ [chunk_frame payload]) s.
Proof.
  intros Hm Hr Ho He. revert Hm Hr Ho He. open_caller e s.
  all: intros Hm Hr Ho He; try discriminate; try excl_str.
  all: try congruence.
Qed.

Lemma live_audio1 e s f :
  unit000 e = Some f ->
  elevenlabsReady s = true -> elevenlabsSocket s = Some OPEN ->
  enabled e s = true ->
  step h1 e s = set_toEleven (toEleven s ++ [f]) s.
Proof.
  intros Hm Hr Ho He. revert Hm Hr Ho He. open_caller e s.
  all: intros Hm Hr Ho He; try discriminate; try excl_str.
  all: link_get; try congruence.
Qed.

Lemma live_audio2 e s bytes :
  media_unit e = Some bytes ->
  elevenlabsReady s = true -> elevenlabsSocket s = Some OPEN ->
  enabled e s = true ->
  step h2 e s = set_toEleven (toEleven s ++ [BinaryFrame bytes]) s.
Proof.
  intros Hm Hr Ho He. revert Hm Hr Ho He. open_caller e s.
  all: intros Hm Hr Ho He; try discriminate; try excl_str.
  all: try congruence.
Qed.

(** A payload that does not decode, or is empty in part_000. *)
Lemma bad_payload1 e s payload :
  media_payload e = Some payload ->
  truthy payload = false \/ decode_payload payload = Throw ->
  step h1 e s = s.
Proof.
  intros Hm Hbad. revert Hm Hbad. open_caller e s.
  all: intros Hm [Hbad | Hbad]; try discriminate; try excl_str.
  all: link_get; try reflexivity; congruence.
Qed.

Lemma bad_payload2 e s payload :
  media_payload e = Some payload ->
  decode_payload payload = Throw ->
  step h2 e s = s.
Proof.
  intros Hm Hbad. revert Hm Hbad. open_caller e s.
  all: intros Hm Hbad; try discriminate; try excl_str.
  all: try reflexivity; congruence.
Qed.

(** A caller message that is no readable start, media or stop event. *)
Lemma other_message0 d s :
  start_sid (TwilioMessage d) = None ->
  media_payload (TwilioMessage d) = None ->
  is_stop (TwilioMessage d) = false ->
  step h0 (TwilioMessage d) s = s.
Proof.
  intros H1 H2 H3. revert H1 H2 H3. open_state s. unfold_loop.
  unfold media_payload, start_sid, is_stop. handler_cases.
  all: intros H1 H2 H3; try discriminate; try reflexivity.
Qed.

Lemma other_message1 d s :
  start_sid (TwilioMessage d) = None ->
  media_payload (TwilioMessage d) = None ->
  is_stop (TwilioMessage d) = false ->
  step h1 (TwilioMessage d) s = s.
Proof.
  intros H1 H2 H3. revert H1 H2 H3. open_state s. unfold_loop.
  unfold media_payload, start_sid, is_stop. handler_cases.
  all: intros H1 H2 H3; try discriminate; try reflexivity.
  all: try get_contra; link_get; try discriminate.
Qed.

Lemma other_message2 d s :
  start_sid (TwilioMessage d) = None ->
  media_payload (TwilioMessage d) = None ->
  is_stop (TwilioMessage d) = false ->
  step h2 (TwilioMessage d) s = s.
Proof.
  intros H1 H2 H3. revert H1 H2 H3. open_state s. unfold_loop.
  unfold media_payload, start_sid, is_stop. handler_cases.
  all: intros H1 H2 H3; try discriminate; try reflexivity.
Qed.

(** Binary audio of the agent. *)
Lemma agent_blob1 s bytes :
  enabled (ElevenMessage (BlobData bytes)) s = true ->
  streaming s ->
  run h1 [ElevenMessage (BlobData bytes); BlobRead (List.length (blobReads s))] s
  = set_toTwilio
      (toTwilio s ++ [media_frame (streamSid s) (JStr (encode_audio bytes))]) s.
Proof.
  intros He [Hsid Htw]. open_state s. cbn [run fold_left].
  unfold_loop. unfold_ops. subst.
  destruct (pending_read blobs bytes) as [Hnth Hrem].
  pose proof (pending_ltb blobs bytes) as Hlt.
  destruct el as [[| | |]|]; try discriminate; unfold_ops.
  all: rewrite Hlt, Hnth, Hrem, Hsid; reflexivity.
Qed.

Lemma agent_blob2 s bytes :
  enabled (ElevenMessage (BlobData bytes)) s = true ->
  streaming s ->
  run h2 [ElevenMessage (BlobData bytes); BlobRead (List.length (blobReads s))] s
  = set_toTwilio
      (toTwilio s ++ [media_frame (streamSid s) (JStr (encode_audio bytes))]) s.
Proof.
  intros He [Hsid Htw]. open_state s. cbn [run fold_left].
  unfold_loop. unfold_ops. subst.
  destruct (pending_read blobs bytes) as [Hnth Hrem].
  pose proof (pending_ltb blobs bytes) as Hlt.
  destruct el as [[| | |]|]; try discriminate; unfold_ops.
  all: rewrite Hlt, Hnth, Hrem, Hsid; reflexivity.
Qed.

(** Without a session identifier, or with the caller gone, the chunk is
    read and dropped. *)
Lemma agent_blob_dropped1 s bytes :
  enabled (ElevenMessage (BlobData bytes)) s = true ->
  truthy (streamSid s) = false \/ twilioSocket s <> OPEN ->
  run h1 [ElevenMessage (BlobData bytes); BlobRead (List.length (blobReads s))] s
  = s.
Proof.
  intros He Hno. open_state s. cbn [run fold_left].
  unfold_loop. unfold_ops.
  destruct (pending_read blobs bytes) as [Hnth Hrem].
  pose proof (pending_ltb blobs bytes) as Hlt.
  destruct el as [[| | |]|]; try discriminate; unfold_ops.
  all: rewrite Hlt, Hnth, Hrem.
  all: destruct tw; destruct Hno as [Hno | Hno]; try congruence;
       unfold_ops; rewrite ?Hno; try reflexivity.
Qed.

Lemma agent_blob_dropped2 s bytes :
  enabled (ElevenMessage (BlobData bytes)) s = true ->
  truthy (streamSid s) = false \/ twilioSocket s <> OPEN ->
  run h2 [ElevenMessage (BlobData bytes); BlobRead (List.length (blobReads s))] s
  = s.
Proof.
  intros He Hno. open_state s. cbn [run fold_left].
  unfold_loop. unfold_ops.
  destruct (pending_read blobs bytes) as [Hnth Hrem].
  pose proof (pending_ltb blobs bytes) as Hlt.
  destruct el as [[| | |]|]; try discriminate; unfold_ops.
  all: rewrite Hlt, Hnth, Hrem.
  all: destruct tw; destruct Hno as [Hno | Hno]; try congruence;
       unfold_ops; rewrite ?Hno; try reflexivity.
Qed.

(** An [ArrayBuffer] is forwarded at once by part_000 and is no JSON for
    part_001; media-bridge.ts reads no binary frame at all. *)
Lemma agent_buffer1 s bytes :
  enabled (ElevenMessage (ArrayBufferData bytes)) s = true ->
  streaming s ->
  step h1 (ElevenMessage (ArrayBufferData bytes)) s
  = set_toTwilio
      (toTwilio s ++ [media_frame (streamSid s) (JStr (encode_audio bytes))]) s.
Proof.
  intros He [Hsid Htw]. open_state s. unfold_loop. unfold_ops. subst.
  destruct el as [[| | |]|]; try discriminate; unfold_ops.
  all: rewrite Hsid; reflexivity.
Qed.

Lemma agent_buffer2 s bytes :
  step h2 (ElevenMessage (ArrayBufferData bytes)) s = s.
Proof. open_state s. unfold_loop. handler_cases; reflexivity. Qed.

Lemma agent_binary0 s d :
  JSON_parse d = Throw ->
  step h0 (ElevenMessage d) s = s.
Proof.
  intros Hd. open_state s. unfold_loop. unfold_ops. unfold JSON_parse in Hd.
  destruct d; rewrite ?Hd; handler_cases; reflexivity.
Qed.
End Revisions.
End AudioFacts.

Module CodecFacts.

Import Base64Facts.

Lemma atob_whitespace (s s' : string) :
  filter not_whitespace (list_ascii_of_string s)
  = filter not_whitespace (list_ascii_of_string s') ->
  atob s = atob s'.
Proof.
  unfold atob, not_whitespace. intros E.
  change (fun c => negb (is_ascii_whitespace c))
    with (fun c : ascii => negb (is_ascii_whitespace c)).
  now rewrite E.
Qed.

Lemma filter_chars (xs : list ascii) :
  Forall plain xs -> filter not_whitespace xs = xs.
Proof.
  intros H. rewrite <- (app_nil_r xs).
  apply (filter_plain xs []); auto.
Qed.

Lemma strip_padding_chars (xs : list ascii) :
  Forall plain xs -> strip_padding xs = xs.
Proof.
  intros H.
  destruct (Nat.eqb_spec (List.length xs mod 4) 0) as [E | E].
  - rewrite <- (app_nil_r xs) at 1.
    apply strip_padding_plain; auto. now rewrite app_nil_r.
  - unfold strip_padding.
    destruct (Nat.eqb_spec (List.length xs mod 4) 0); [contradiction | reflexivity].
Qed.

Lemma byte_values (audioData : list byte) :
  Forall is_byte (map N_of_ascii (list_ascii_of_string (string_of_list_byte audioData))).
Proof.
  apply Forall_forall. intros x Hx.
  apply in_map_iff in Hx. destruct Hx as (c & <- & _).
  apply N_ascii_bounded.
Qed.

Lemma decode_unpadded (audioData : list byte) (s : string) :
  filter not_whitespace (list_ascii_of_string s)
  = map b64_char (sextets_of_bytes
                    (map N_of_ascii
                       (list_ascii_of_string (string_of_list_byte audioData)))) ->
  decode_payload (JStr s) = Normal audioData.
Proof.
  intros E. unfold decode_payload. cbn [ToString]. unfold atob.
  set (bytes := map N_of_ascii
                  (list_ascii_of_string (string_of_list_byte audioData))) in *.
  pose proof (byte_values audioData) as Hbytes. fold bytes in Hbytes.
  change (fun c => negb (is_ascii_whitespace c)) with not_whitespace.
  rewrite E.
  rewrite strip_padding_chars by apply chars_plain.
  rewrite length_map.
  destruct (encoded_length bytes) as [_ Hlen].
  destruct (Nat.eqb_spec (List.length (sextets_of_bytes bytes) mod 4) 1) as [E1 | _];
    [contradiction|].
  rewrite indices_chars by (apply sextets_of_bytes_bounded; exact Hbytes).
  rewrite bytes_of_sextets_of_bytes by exact Hbytes.
  subst bytes. rewrite map_map.
  rewrite (map_ext _ (fun c => c)) by (intros c; apply ascii_N_embedding).
  rewrite map_id, string_of_list_ascii_of_string.
  now rewrite list_byte_of_string_of_list_byte.
Qed.

Lemma decode_spaced (audioData : list byte) (s : string) :
  filter not_whitespace (list_ascii_of_string s)
  = list_ascii_of_string (encode_audio audioData) ->
  decode_payload (JStr s) = Normal audioData.
Proof.
  intros E. rewrite <- (decode_encode audioData).
  unfold decode_payload. cbn [ToString].
  rewrite (atob_whitespace s (encode_audio audioData)); [reflexivity|].
  rewrite E. symmetry. unfold encode_audio, btoa.
  rewrite list_ascii_of_string_of_list_ascii.
  apply filter_plain; auto using chars_plain, padding_cases.
Qed.

(** A character outside the alphabet. *)
Lemma indices_foreign (d : list ascii) (c : ascii) :
  In c d -> b64_index c = None -> indices d = None.
Proof.
  induction d as [|x d IH]; intros Hin Hc; [contradiction|].
  cbn [indices]. destruct Hin as [-> | Hin].
  - now rewrite Hc.
  - rewrite (IH Hin Hc). now destruct (b64_index x).
Qed.

Lemma strip_padding_keeps (d : list ascii) (c : ascii) :
  In c d -> Ascii.eqb c pad_char = false -> In c (strip_padding d).
Proof.
  intros Hin Hc. unfold strip_padding.
  destruct (List.length d mod 4 =? 0)%nat; [|exact Hin].
  apply in_rev in Hin.
  destruct (rev d) as [|c1 r1] eqn:E; [contradiction|].
  destruct (Ascii.eqb c1 pad_char) eqn:E1.
  - destruct Hin as [-> | Hin]; [congruence|].
    destruct r1 as [|c2 r2]; [contradiction|].
    destruct (Ascii.eqb c2 pad_char) eqn:E2.
    + destruct Hin as [-> | Hin]; [congruence|]. now apply in_rev in Hin.
    + now apply in_rev in Hin.
  - apply in_rev. rewrite E. exact Hin.
Qed.

Lemma atob_foreign (s : string) (c : ascii) :
  In c (list_ascii_of_string s) ->
  is_ascii_whitespace c = false ->
  Ascii.eqb c pad_char = false ->
  b64_index c = None ->
  atob s = Throw.
Proof.
  intros Hin Hws Hpad Hidx. unfold atob.
  set (d := strip_padding _).
  assert (Hd : In c d).
  { subst d. apply strip_padding_keeps; [|exact Hpad].
    apply filter_In. split; [exact Hin | now rewrite Hws]. }
  destruct (List.length d mod 4 =? 1)%nat; [reflexivity|].
  now rewrite (indices_foreign d c Hd Hidx).
Qed.

Lemma string_length_chars (l : list ascii) :
  String.length (string_of_list_ascii l) = List.length l.
Proof. induction l as [|c l IH]; cbn; [reflexivity | now rewrite IH]. Qed.

Lemma encoded_size (l : list N) :
  (List.length (sextets_of_bytes l) + List.length (padding (List.length l))
   = 4 * ((List.length l + 2) / 3))%nat.
Proof.
  induction l as [|a|a b|a b c rest IH] using list_ind3; try reflexivity.
  cbn [sextets_of_bytes List.length].
  assert (Hpad : padding (S (S (S (List.length rest)))) = padding (List.length rest)).
  { unfold padding.
    replace (S (S (S (List.length rest)))) with (List.length rest + 1 * 3)%nat by lia.
    now rewrite Nat.Div0.mod_add. }
  rewrite Hpad.
  replace (S (S (S (List.length rest))) + 2)%nat
    with (List.length rest + 2 + 1 * 3)%nat by lia.
  rewrite Nat.div_add by discriminate. lia.
Qed.

Lemma encode_audio_length (audioData : list byte) :
  String.length (encode_audio audioData)
  = (4 * ((List.length audioData + 2) / 3))%nat.
Proof.
  unfold encode_audio, btoa.
  rewrite string_length_chars, length_app, length_map, encoded_size.
  rewrite length_map.
  unfold string_of_list_byte. rewrite list_ascii_of_string_of_list_ascii.
  now rewrite length_map.
Qed.

Lemma encode_audio_empty (audioData : list byte) :
  truthy (JStr (encode_audio audioData)) = false <-> audioData = [].
Proof.
  split.
  - intros H. cbn [truthy] in H. apply negb_false_iff, String.eqb_eq in H.
    pose proof (encode_audio_length audioData) as Hlen. rewrite H in Hlen.
    cbn [String.length] in Hlen.
    destruct audioData as [|x l]; [reflexivity|]. exfalso.
    cbn [List.length] in Hlen.
    assert (1 <= (S (List.length l) + 2) / 3)%nat.
    { apply Nat.div_le_lower_bound; lia. }
    lia.
  - intros ->. reflexivity.
Qed.

End CodecFacts.

Module ServeFacts.
Import Serve.

Lemma truthy_string (x : option string) :
  not_string x = false -> exists s, x = Some s /\ s <> "" /\ or_string x "" = s.
Proof.
  destruct x as [s|]; cbn; [|discriminate]. intros H. exists s.
  rewrite H. repeat split. intros ->. discriminate.
Qed.

Lemma or_string_default (x : option string) (d : string) :
  d <> "" -> or_string x d <> "".
Proof.
  intros Hd. destruct x as [s|]; cbn; [|exact Hd].
  destruct (String.eqb_spec s ""); auto.
Qed.

End ServeFacts.

Module RepeatFacts.
Section Revisions.
Variable decodeURIComponent : string -> completion string.
Variable call : Call.
Local Abbreviation h0 := (MediaBridge.handlers decodeURIComponent call).
Local Abbreviation h1 := (Part000.handlers call).
Local Abbreviation h2 := (Part001.handlers call).

Ltac repeat_cases e s :=
  unfold is_stop;
  destruct s as [tw el sid ready buf fp blobs sent_tw sent_el];
  destruct e; unfold_loop; handler_cases;
  intros [Hstop | Hstop]; try discriminate; try excl_str; try reflexivity;
  try congruence.

Lemma stop_twice0 e s :
  is_stop e = true \/ e = TwilioClose ->
  step h0 e (step h0 e s) = step h0 e s.
Proof. intros H. revert H. repeat_cases e s. Qed.

Lemma stop_twice1 e s :
  is_stop e = true \/ e = TwilioClose ->
  step h1 e (step h1 e s) = step h1 e s.
Proof. intros H. revert H. repeat_cases e s. Qed.

Lemma stop_twice2 e s :
  is_stop e = true \/ e = TwilioClose ->
  step h2 e (step h2 e s) = step h2 e s.
Proof. intros H. revert H. repeat_cases e s. Qed.
End Revisions.
End RepeatFacts.

(** * More of the code *)

(** ** The request handler *)

(** X1: in every revision a bridge is started only on a request whose
    [upgrade] header is "websocket" in any letter case, that names a
    non-empty [agent_id], with a non-empty API key configured and a valid
    handshake; the call gets the business name of the request, or "there"
    when it is missing or empty (decoded first in part_000), and its phone
    number or the empty string. *)
Theorem bridge_needs_agent_and_key
    (decodeURIComponent : string -> completion string)
    (key : option string) (req : Serve.Request)
    (agentId callSid : string) (call : Call) :
  (Serve.media_bridge key req = Normal (Serve.Upgraded agentId callSid call) ->
   upgrade_guard key req agentId callSid /\
   call = mkCall (Serve.or_string (Serve.business_name req) "there")
                 (Serve.or_string (Serve.phone_number req) "") /\
   businessName call <> "")
  /\ (Serve.part_001 key req = Normal (Serve.Upgraded agentId callSid call) ->
      upgrade_guard key req agentId callSid /\
      call = mkCall (Serve.or_string (Serve.business_name req) "there")
                    (Serve.or_string (Serve.phone_number req) "") /\
      businessName call <> "")
  /\ (Serve.part_000 decodeURIComponent key req
      = Normal (Serve.Upgraded agentId callSid call) ->
      upgrade_guard key req agentId callSid /\
      decodeURIComponent (Serve.or_string (Serve.business_name req) "there")
      = Normal (businessName call) /\
      phoneNumber call = Serve.or_string (Serve.phone_number req) "").
Proof.
  unfold Serve.media_bridge, Serve.part_001, Serve.part_000, upgrade_guard,
    Serve.wants_upgrade.
  split; [|split].
  - destruct (String.eqb _ "websocket"); [|destruct (_ || _); discriminate].
    destruct (Serve.not_string (Serve.agent_id req)) eqn:Ha; [discriminate|].
    destruct (Serve.not_string key) eqn:Hk; [discriminate|].
    destruct (Serve.handshake req); [|discriminate].
    intros H. inversion H; subst; clear H.
    destruct (ServeFacts.truthy_string _ Ha) as (a & Ea & Hne & Eo).
    rewrite Eo, Ea. cbn [businessName].
    repeat split; auto. now apply ServeFacts.or_string_default.
  - destruct (String.eqb _ "websocket"); [|destruct (_ || _); discriminate].
    destruct (Serve.not_string (Serve.agent_id req)) eqn:Ha; [discriminate|].
    destruct (Serve.not_string key) eqn:Hk; [discriminate|].
    destruct (Serve.handshake req); [|discriminate].
    intros H. inversion H; subst; clear H.
    destruct (ServeFacts.truthy_string _ Ha) as (a & Ea & Hne & Eo).
    rewrite Eo, Ea. cbn [businessName].
    repeat split; auto. now apply ServeFacts.or_string_default.
  - destruct (String.eqb _ "websocket"); [|discriminate].
    destruct (decodeURIComponent _) as [name|] eqn:Hd; [|discriminate].
    destruct (Serve.not_string (Serve.agent_id req)) eqn:Ha; [discriminate|].
    destruct (Serve.not_string key) eqn:Hk; [discriminate|].
    destruct (Serve.handshake req); [|discriminate].
    intros H. inversion H; subst; clear H.
    destruct (ServeFacts.truthy_string _ Ha) as (a & Ea & Hne & Eo).
    rewrite Eo, Ea. cbn [businessName phoneNumber].
    repeat split; auto.
Qed.

Lemma bridge_needs_agent_and_key_witness :
  upgrade_guard (Some "xi-key") upgrade_request "agent_1" "CA1" /\
  mkCall "there" "" = mkCall "there" "" /\
  businessName (mkCall "there" "") <> "".
Proof.
  exact (proj1 (bridge_needs_agent_and_key plain_decode (Some "xi-key")
                  upgrade_request "agent_1" "CA1" (mkCall "there" ""))
           eq_refl).
Defined.

(** X2: an upgrade request without an [agent_id] is answered 400 whatever
    the path, the API key and the handshake, and one with an [agent_id] but
    no API key is answered 500; no bridge is started.  In part_000 the
    business name is decoded first: when that throws, the handler throws
    before the [agent_id] is looked at. *)
Theorem upgrade_refused
    (decodeURIComponent : string -> completion string)
    (key : option string) (req : Serve.Request) :
  Serve.wants_upgrade req = true ->
  (Serve.not_string (Serve.agent_id req) = true ->
   Serve.media_bridge key req = Normal (Serve.Plain 400 "Missing agent_id") /\
   Serve.part_001 key req = Normal (Serve.Plain 400 "Missing agent_id") /\
   Serve.part_000 decodeURIComponent key req
   = match decodeURIComponent (Serve.or_string (Serve.business_name req) "there") with
     | Normal _ => Normal (Serve.Plain 400 "Missing agent_id")
     | Throw => Throw
     end)
  /\ (Serve.not_string (Serve.agent_id req) = false ->
      Serve.not_string key = true ->
      Serve.media_bridge key req
      = Normal (Serve.Plain 500 "Server configuration error") /\
      Serve.part_001 key req
      = Normal (Serve.Plain 500 "Server configuration error") /\
      Serve.part_000 decodeURIComponent key req
      = match decodeURIComponent (Serve.or_string (Serve.business_name req) "there") with
        | Normal _ => Normal (Serve.Plain 500 "Server configuration error")
        | Throw => Throw
        end).
Proof.
  unfold Serve.wants_upgrade, Serve.media_bridge, Serve.part_001, Serve.part_000.
  intros ->. split.
  - intros ->. repeat split.
  - intros -> ->. repeat split.
Qed.

Lemma upgrade_refused_witness :
  Serve.media_bridge (Some "xi-key")
    (Serve.mkRequest (Some "websocket") "/" (Some "") None None None true)
  = Normal (Serve.Plain 400 "Missing agent_id").
Proof.
  exact (proj1 (proj1 (upgrade_refused plain_decode (Some "xi-key")
                         (Serve.mkRequest (Some "websocket") "/" (Some "")
                            None None None true) eq_refl) eq_refl)).
Defined.

(** X3: a request that asks for no upgrade never starts a bridge, whatever
    its query parameters and the API key: media-bridge.ts and part_001
    answer 200 on the paths /health and / and 426 elsewhere, part_000
    answers 200 on every path. *)
Theorem plain_request_answered
    (decodeURIComponent : string -> completion string)
    (key : option string) (req : Serve.Request) :
  Serve.wants_upgrade req = false ->
  Serve.media_bridge key req = Normal (plain_answer req) /\
  Serve.part_001 key req = Normal (plain_answer req) /\
  Serve.part_000 decodeURIComponent key req = Normal (Serve.Plain 200 "OK").
Proof.
  unfold Serve.wants_upgrade, Serve.media_bridge, Serve.part_001,
    Serve.part_000, plain_answer.
  intros ->. repeat split; destruct (_ || _); reflexivity.
Qed.

Lemma plain_request_answered_witness :
  Serve.media_bridge None
    (Serve.mkRequest None "/metrics" (Some "agent_1") None None None false)
  = Normal (Serve.Plain 426 "Expected WebSocket").
Proof.
  exact (proj1 (plain_request_answered plain_decode None
                  (Serve.mkRequest None "/metrics" (Some "agent_1") None None
                     None false) eq_refl)).
Defined.

(** ** Invariants of a call *)

(** X4: in every revision the readiness flag, once true, stays true
    whatever events follow. *)
Theorem readiness_is_kept
    (decodeURIComponent : string -> completion string) (call : Call) :
  ready_is_kept (MediaBridge.handlers decodeURIComponent call) /\
  ready_is_kept (Part000.handlers call) /\
  ready_is_kept (Part001.handlers call).
Proof.
  split; [|split]; apply MoreFacts.ready_run.
  - apply MoreFacts.ready_step0.
  - apply MoreFacts.ready_step1.
  - apply MoreFacts.ready_step2.
Qed.

Lemma readiness_is_kept_witness :
  elevenlabsReady
    (run (Part001.handlers acme) [TwilioClose; ElevenClose]
       (run (Part001.handlers acme) connect init)) = true.
Proof.
  exact (proj2 (proj2 (readiness_is_kept plain_decode acme))
           [TwilioClose; ElevenClose]
           (run (Part001.handlers acme) connect init) eq_refl).
Defined.



(** X7: in every run, what the agent leg has received is nothing while the
    bridge is not ready, and otherwise the session-initialisation message
    first and exactly once, followed in part_000 and part_001 by binary
    audio frames only, and in media-bridge.ts (when the business name can be
    decoded) by re-wrapped caller payloads and pongs only. *)
Theorem init_message_comes_first
    (decodeURIComponent : string -> completion string) (call : Call)
    (name : string) :
  (decodeURIComponent (businessName call) = Normal name ->
   init_comes_first (MediaBridge.handlers decodeURIComponent call)
     (TextFrame (stringify (MediaBridge.initMessage call name))) json_frame)
  /\ init_comes_first (Part000.handlers call)
       (TextFrame (stringify (Part000.sessionConfig call))) is_binary
  /\ init_comes_first (Part001.handlers call)
       (TextFrame (stringify (Part001.initMessage call))) is_binary.
Proof.
  split; [|split].
  - intros Hname.
    apply (InitFacts.init_comes_first_holds _
             (StepFacts.idle_step0 decodeURIComponent call) _ _
             (fun s => elevenlabsSocket s = Some OPEN -> elevenlabsReady s = true)).
    + discriminate.
    + intros e s Hidle H.
      now apply (InitFacts.initialised_step0 decodeURIComponent call name).
  - apply (InitFacts.init_comes_first_holds _ (StepFacts.idle_step1 call) _ _
             (fun _ => True)); [exact I|].
    intros e s Hidle [H _]. split; [|exact I].
    now apply InitFacts.initialised_step1.
  - apply (InitFacts.init_comes_first_holds _ (StepFacts.idle_step2 call) _ _
             (fun _ => True)); [exact I|].
    intros e s Hidle [H _]. split; [|exact I].
    now apply InitFacts.initialised_step2.
Qed.

Lemma init_message_comes_first_witness :
  init_comes_first (MediaBridge.handlers plain_decode acme)
    (TextFrame (stringify (MediaBridge.initMessage acme "Acme"))) json_frame.
Proof.
  exact (proj1 (init_message_comes_first plain_decode acme "Acme") eq_refl).
Defined.

(** X8: in part_000 and part_001, whenever the agent connection is open the
    bridge is ready and the pending-audio queue is empty: the queue is
    emptied when the connection opens and nothing is queued while it is
    open. *)
Theorem open_agent_has_empty_queue (call : Call) :
  nothing_waits_while_open (Part000.handlers call) /\
  nothing_waits_while_open (Part001.handlers call).
Proof.
  split.
  - apply DrainFacts.nothing_waits1.
  - apply DrainFacts.nothing_waits2.
Qed.

Lemma open_agent_has_empty_queue_witness :
  let s := run (Part000.handlers acme) (early_audio ++ [ElevenOpen]) init in
  elevenlabsReady s = true /\ audioBuffer s = [].
Proof.
  exact (proj1 (open_agent_has_empty_queue acme)
           (early_audio ++ [ElevenOpen]) eq_refl).
Defined.



(** X10: in every revision the close of the agent connection leaves the
    caller connection closing or closed (an open one is closed by the
    handler) and sends nothing on either connection. *)
Theorem agent_close_closes_caller
    (decodeURIComponent : string -> completion string) (call : Call) :
  agent_close_cascades (MediaBridge.handlers decodeURIComponent call) /\
  agent_close_cascades (Part000.handlers call) /\
  agent_close_cascades (Part001.handlers call).
Proof.
  split; [|split].
  - apply MoreFacts.agent_close0.
  - apply MoreFacts.agent_close1.
  - apply MoreFacts.agent_close2.
Qed.

Lemma agent_close_closes_caller_witness :
  let h := Part001.handlers acme in
  let s' := step h ElevenClose (run h connect init) in
  elevenlabsSocket s' = Some CLOSED /\ twilioSocket s' <> OPEN /\
  (twilioSocket (run h connect init) = OPEN -> twilioSocket s' = CLOSING) /\
  toEleven s' = toEleven (run h connect init) /\
  toTwilio s' = toTwilio (run h connect init).
Proof.
  exact (proj2 (proj2 (agent_close_closes_caller plain_decode acme))
           (run (Part001.handlers acme) connect init) eq_refl).
Defined.

(** X11: in every revision a credential exchange that fails in any way (a
    non-success response, a rejected [fetch], a body that is no JSON or a
    URL the WebSocket constructor refuses) leaves the caller connection
    closing or closed, and the agent connection is never created, the
    bridge never ready and nothing ever sent to the agent afterwards. *)
Theorem any_exchange_failure_ends_call
    (decodeURIComponent : string -> completion string) (call : Call) :
  any_failed_exchange_closes (MediaBridge.handlers decodeURIComponent call) /\
  any_failed_exchange_closes (Part000.handlers call) /\
  any_failed_exchange_closes (Part001.handlers call).
Proof.
  split; [|split].
  - apply (LifeFacts.any_failed_exchange_closes_holds _
             (StepFacts.idle_step0 decodeURIComponent call)
             (StepFacts.failed_step0 decodeURIComponent call)).
    apply LifeFacts.any_exchange_fails0.
  - apply (LifeFacts.any_failed_exchange_closes_holds _
             (StepFacts.idle_step1 call) (StepFacts.failed_step1 call)).
    apply LifeFacts.any_exchange_fails1.
  - apply (LifeFacts.any_failed_exchange_closes_holds _
             (StepFacts.idle_step2 call) (StepFacts.failed_step2 call)).
    apply LifeFacts.any_exchange_fails2.
Qed.

Lemma any_exchange_failure_ends_call_witness :
  let s := run (Part000.handlers acme)
             ([TwilioOpen; media_event (JStr "AAAA")]
              ++ FetchSettled FetchRejected :: [media_event (JStr "AQID")])
             init in
  (twilioSocket s = CLOSING \/ twilioSocket s = CLOSED) /\
  elevenlabsSocket s = None /\ elevenlabsReady s = false /\ toEleven s = [].
Proof.
  exact (proj1 (proj2 (any_exchange_failure_ends_call plain_decode acme))
           FetchRejected [TwilioOpen; media_event (JStr "AAAA")]
           [media_event (JStr "AQID")] eq_refl eq_refl).
Defined.



(** X13: in every revision a message of the caller, whatever it holds,
    never puts a frame on the caller connection and never changes the state
    of the caller connection. *)
Theorem caller_messages_stay_inbound
    (decodeURIComponent : string -> completion string) (call : Call) :
  caller_message_stays_inbound (MediaBridge.handlers decodeURIComponent call) /\
  caller_message_stays_inbound (Part000.handlers call) /\
  caller_message_stays_inbound (Part001.handlers call).
Proof.
  split; [|split].
  - apply MoreFacts.inbound0.
  - apply MoreFacts.inbound1.
  - apply MoreFacts.inbound2.
Qed.

(** ** Audio in both directions *)



(** X15: in media-bridge.ts, once the bridge is ready and the agent
    connection is open, every delivered caller [media] event is forwarded at
    once as one JSON frame [{user_audio_chunk: payload}] that carries the
    payload as it came, neither decoded nor checked, and nothing else
    changes. *)
Theorem media_bridge_forwards_payload_verbatim
    (decodeURIComponent : string -> completion string) (call : Call)
    (e : Event) (s : State Empty_set) (payload : js) :
  media_payload e = Some payload ->
  elevenlabsReady s = true -> elevenlabsSocket s = Some OPEN ->
  enabled e s = true ->
  step (MediaBridge.handlers decodeURIComponent call) e s
  = set_toEleven (toEleven s ++ [chunk_frame payload]) s.
Proof. apply AudioFacts.live_audio0. Qed.

Lemma media_bridge_forwards_payload_verbatim_witness :
  let h := MediaBridge.handlers plain_decode acme in
  let s := run h connect init in
  step h (media_event (JStr "not base64!")) s
  = set_toEleven (toEleven s ++ [chunk_frame (JStr "not base64!")]) s.
Proof.
  exact (media_bridge_forwards_payload_verbatim plain_decode acme
           (media_event (JStr "not base64!"))
           (run (MediaBridge.handlers plain_decode acme) connect init)
           (JStr "not base64!") eq_refl eq_refl eq_refl eq_refl).
Defined.





(** X18: a message of the agent that the revision cannot read is absorbed,
    leaving the state unchanged: in media-bridge.ts every message that is no
    JSON text, binary frames included, and in part_001 every
    [ArrayBuffer]. *)
Theorem unreadable_agent_message_absorbed
    (decodeURIComponent : string -> completion string) (call : Call) :
  (forall d s,
     JSON_parse d = Throw ->
     absorbed (MediaBridge.handlers decodeURIComponent call) (ElevenMessage d) s)
  /\ (forall bytes s,
        absorbed (Part001.handlers call) (ElevenMessage (ArrayBufferData bytes)) s).
Proof.
  split.
  - intros d s Hd. apply ClaimFacts.absorbed_of_step.
    now apply AudioFacts.agent_binary0.
  - intros bytes s. apply ClaimFacts.absorbed_of_step.
    apply AudioFacts.agent_buffer2.
Qed.

Lemma unreadable_agent_message_absorbed_witness :
  absorbed (MediaBridge.handlers plain_decode acme)
    (ElevenMessage (BlobData [x01; x02; x03]%byte))
    (run (MediaBridge.handlers plain_decode acme) streaming_call init).
Proof.
  exact (proj1 (unreadable_agent_message_absorbed plain_decode acme)
           (BlobData [x01; x02; x03]%byte)
           (run (MediaBridge.handlers plain_decode acme) streaming_call init)
           eq_refl).
Defined.



(** X20: in every revision a caller message that is not a readable
    [start], [media] or [stop] event (text that is no JSON, a binary frame,
    an unknown [event], a [start] without a [start] object, a [media]
    without a [media] object) is absorbed: the state is unchanged and the
    connection stays as it is. *)
Theorem other_caller_message_absorbed
    (decodeURIComponent : string -> completion string) (call : Call)
    (d : MessageData) :
  start_sid (TwilioMessage d) = None ->
  media_payload (TwilioMessage d) = None ->
  is_stop (TwilioMessage d) = false ->
  (forall s, absorbed (MediaBridge.handlers decodeURIComponent call)
               (TwilioMessage d) s)
  /\ (forall s, absorbed (Part000.handlers call) (TwilioMessage d) s)
  /\ (forall s, absorbed (Part001.handlers call) (TwilioMessage d) s).
Proof.
  intros H1 H2 H3. repeat apply conj; intros s;
    apply ClaimFacts.absorbed_of_step.
  - now apply AudioFacts.other_message0.
  - now apply AudioFacts.other_message1.
  - now apply AudioFacts.other_message2.
Qed.

Lemma other_caller_message_absorbed_witness :
  absorbed (Part000.handlers acme) (TwilioMessage (TextData Throw))
    (run (Part000.handlers acme) connect init).
Proof.
  exact (proj1 (proj2 (other_caller_message_absorbed plain_decode acme
                         (TextData Throw) eq_refl eq_refl eq_refl))
           (run (Part000.handlers acme) connect init)).
Defined.

(** ** The codec *)

(** X21: decoding a caller payload is forgiving: a text that, once its
    ASCII whitespace is removed, is the base64 encoding of a chunk b, with
    or without the [=] padding, decodes to exactly b. *)
Theorem decode_is_forgiving (b : list byte) (s : string) :
  compact s = list_ascii_of_string (encode_audio b) \/ compact s = unpadded b ->
  decode_payload (JStr s) = Normal b.
Proof.
  intros [H | H].
  - now apply CodecFacts.decode_spaced.
  - now apply CodecFacts.decode_unpadded.
Qed.

Lemma decode_is_forgiving_witness :
  decode_payload (JStr " AA EC Aw") = Normal [x00; x01; x02; x03]%byte.
Proof.
  exact (decode_is_forgiving [x00; x01; x02; x03]%byte " AA EC Aw"
           (or_intror eq_refl)).
Defined.

(** X22: a payload that holds a character which is neither ASCII
    whitespace, nor [=], nor of the base64 alphabet does not decode:
    [atob] throws, wherever the character stands. *)
Theorem decode_rejects_foreign_character (s : string) (c : ascii) :
  In c (list_ascii_of_string s) ->
  is_ascii_whitespace c = false ->
  Ascii.eqb c pad_char = false ->
  b64_index c = None ->
  decode_payload (JStr s) = Throw.
Proof.
  intros Hin Hws Hpad Hidx. unfold decode_payload. cbn [ToString].
  now rewrite (CodecFacts.atob_foreign s c Hin Hws Hpad Hidx).
Qed.

Lemma decode_rejects_foreign_character_witness :
  decode_payload (JStr "AQ-D") = Throw.
Proof.
  exact (decode_rejects_foreign_character "AQ-D" "-"%char
           (or_intror (or_intror (or_introl eq_refl))) eq_refl eq_refl eq_refl).
Defined.


(** X24: an [error] event of the agent connection alone is absorbed by
    media-bridge.ts and part_001 (they wait for the [close] event that
    follows), while part_000 closes the caller connection at once; no
    revision sends anything or touches the agent socket. *)
Theorem agent_error_handling
    (decodeURIComponent : string -> completion string) (call : Call) :
  (forall s, absorbed (MediaBridge.handlers decodeURIComponent call) ElevenError s)
  /\ (forall s, absorbed (Part001.handlers call) ElevenError s)
  /\ (forall s,
        enabled ElevenError s = true ->
        step (Part000.handlers call) ElevenError s
        = set_twilioSocket (ws_close (twilioSocket s)) s).
Proof.
  repeat apply conj; intros s.
  - apply ClaimFacts.absorbed_of_step.
    destruct s. unfold_loop. handler_cases; reflexivity.
  - apply ClaimFacts.absorbed_of_step.
    destruct s. unfold_loop. handler_cases; reflexivity.
  - destruct s. unfold_loop. handler_cases; intros He; try discriminate;
      reflexivity.
Qed.

Lemma agent_error_handling_witness :
  let h := Part000.handlers acme in
  twilioSocket (step h ElevenError (run h connect init)) = CLOSING.
Proof.
  exact (f_equal twilioSocket
           (proj2 (proj2 (agent_error_handling plain_decode acme))
              (run (Part000.handlers acme) connect init) eq_refl)).
Defined.
